(** * twitscrape: paginated scraping of the Twitter archive

    A shallow embedding of package [twitscrape]: the [Scrape] methods
    [Tweets], [tweets], [getHTML] and [infof], and the earlier revision of
    the same file whose [Tweets] is a package-level function that keeps
    [minID] in a package-level variable.

    The Go code calls four packages it does not define ([net/http] with
    [encoding/json], [net/url], [time], [goquery]).  Their functions are
    the fields of the class [Env]; everything the repository itself
    computes is defined here and evaluates by computation. *)

From Stdlib Require Import Ascii.
From stdpp Require Import base decidable option list strings pretty.

(** ** The packages the code imports *)

Class Env := {
  (** [time.Time], its zero value [time.Time{}], [time.Parse] (the error is
      kept as its text) and the method [Format]. *)
  Time : Type;
  Time_zero : Time;
  time_Parse : string → string → Time + string;
  Time_Format : Time → string → string;
  (** [url.QueryEscape], [url.Parse] and the method [String] of [*url.URL]. *)
  url_QueryEscape : string → string;
  URL : Type;
  url_Parse : string → URL + string;
  URL_String : URL → string;
  (** What [http.Get] answers to a URL, given the URLs requested before it
      (oldest first): the response body, or the text of a transport error. *)
  http_Get_body : list string → string → string + string;
  (** Decoding the body as JSON and reading the field [items_html]. *)
  json_Decode_items_html : string → string + string;
  (** [goquery]: parsing, [Find] (the nodes of the selection, in document
      order; no match gives the nil slice), [Attr] and [Text]. *)
  Document : Type;
  Node : Type;
  goquery_NewDocumentFromReader : string → Document + string;
  Find : Document → string → list Node;
  Attr : Node → string → option string;
  Text : Node → string
}.

(** ** Errors, panics and the state of the process *)

(** An [error] is the sentinel [errNoTweets] or a value made by
    [fmt.Errorf]; the code compares errors with [==], and no [fmt.Errorf]
    value is ever equal to the sentinel. *)
Inductive error : Type :=
  | errNoTweets
  | Errorf (msg : string).

Definition Error (e : error) : string :=
  match e with
  | errNoTweets => "tweets: no tweets found"
  | Errorf msg => msg
  end.

Global Instance error_eq_dec : EqDecision error.
Proof. solve_decision. Defined.

(** A call returns a value or panics (a run-time error of Go). *)
Inductive res (A : Type) : Type :=
  | Val (a : A)
  | Panic (msg : string).
Arguments Val {A} a.
Arguments Panic {A} msg.

(** What a run of the code changes outside its own variables: the requests
    made through [http.Get], the chunks written to the log writer, and the
    package-level variables of the earlier revision ([minID], [Verbose]). *)
Record Proc : Type := mkProc {
  sent : list string;
  sink : list string;
  pkg_minID : string;
  pkg_Verbose : bool
}.

Definition Proc_init : Proc := mkProc [] [] "" false.

Definition M (A : Type) : Type := Proc → res A * Proc.

Definition ret {A} (a : A) : M A := λ p, (Val a, p).

Definition bind {A B} (m : M A) (k : A → M B) : M B :=
  λ p, match m p with
       | (Val a, p') => k a p'
       | (Panic msg, p') => (Panic msg, p')
       end.

Definition lift {A} (r : res A) : M A := λ p, (r, p).

Notation "'let*' x ':=' m 'in' k" := (bind m (λ x, k))
  (at level 10, x name, m at level 200, k at level 200,
   format "'[v' 'let*'  x  :=  m  'in'  '/' k ']'").

(** Indexing a slice: [l[i]], which panics out of range. *)
Definition index {A} (l : list A) (i : nat) : res A :=
  match l !! i with
  | Some a => Val a
  | None => Panic "index out of range"
  end.

(** ** Strings *)

Definition LF : string := String "010"%char "".

(** [strings.Split(s, sep)] for a separator of one byte. *)
Fixpoint Split (s : string) (sep : ascii) : list string :=
  match s with
  | "" => [""]
  | String c s' =>
      if decide (c = sep) then "" :: Split s' sep
      else match Split s' sep with
           | h :: r => String c h :: r
           | [] => [String c ""]
           end
  end.

(** [strings.Replace(s, old, new, -1)] for [old] of one byte. *)
Fixpoint Replace (s : string) (old : ascii) (new : string) : string :=
  match s with
  | "" => ""
  | String c s' =>
      if decide (c = old) then new +:+ Replace s' old new
      else String c (Replace s' old new)
  end.

Fixpoint in_cutset (c : ascii) (cutset : string) : bool :=
  match cutset with
  | "" => false
  | String d cutset' => if decide (c = d) then true else in_cutset c cutset'
  end.

Fixpoint TrimLeft (s cutset : string) : string :=
  match s with
  | "" => ""
  | String c s' => if in_cutset c cutset then TrimLeft s' cutset else s
  end.

Definition TrimRight (s cutset : string) : string :=
  String.rev (TrimLeft (String.rev s) cutset).

(** [strings.Trim(s, cutset)]. *)
Definition Trim (s cutset : string) : string :=
  TrimRight (TrimLeft s cutset) cutset.

(** ** Tweets and the three passes over a page *)

Section Extraction.
Context `{Env}.

(** [type Tweet struct]; the zero value is [Tweet{}]. *)
Record Tweet : Type := mkTweet {
  Permalink : string;
  Name : string;
  Timestamp : Time;
  Contents : string;
  ID : string
}.

Definition Tweet_zero : Tweet := mkTweet "" "" Time_zero "" "".

Definition with_Timestamp (tme : Time) (tw : Tweet) : Tweet :=
  mkTweet (Permalink tw) (Name tw) tme (Contents tw) (ID tw).

Definition with_Contents (c : string) (tw : Tweet) : Tweet :=
  mkTweet (Permalink tw) (Name tw) (Timestamp tw) c (ID tw).

Definition selTweet : string :=
  ".tweet.js-stream-tweet.js-actionable-tweet.js-profile-popup-actionable.original-tweet.js-original-tweet".
Definition selTimestamp : string :=
  ".tweet-timestamp.js-permalink.js-nav.js-tooltip".
Definition selContents : string :=
  ".js-tweet-text-container".

Definition statusf (p : string) : string := "https://www.twitter.com" +:+ p.

Definition timeLayout : string := "3:04 PM - 2 Jan 2006".

(** [Selection.Each]: the callback runs on every node with its index, in
    order; [S] is what the callback captures and mutates. *)
Fixpoint Each_from {S : Type} (i : nat) (nodes : list Node)
    (cb : nat → Node → S → M S) (st : S) : M S :=
  match nodes with
  | [] => ret st
  | n :: nodes' =>
      let* st' := cb i n st in
      Each_from (Datatypes.S i) nodes' cb st'
  end.

Definition Each {S : Type} (nodes : list Node)
    (cb : nat → Node → S → M S) (st : S) : M S :=
  Each_from 0 nodes cb st.

(** The two revisions differ in how they log ([s.infof] or [logf]), so the
    callbacks take the logger; a logger gets the line already formatted. *)
Variable logf : string → M unit.

(** Callback of the first [Each]: builds the tweet from the permalink. *)
Definition scrapePermalink (i : nat) (sel : Node) (tweets : list Tweet)
    : M (list Tweet) :=
  match Attr sel "data-permalink-path" with
  | None =>
      let* _ := logf ("tweet " +:+ pretty i +:+ ": could not get permalink" +:+ LF) in
      ret (tweets ++ [Tweet_zero])
  | Some p =>
      let sl := Split p "/" in
      if length sl <? 4 then
        let* _ := logf ("tweet " +:+ pretty i +:+ ": permalink " +:+ p
                      +:+ " was not in correct format" +:+ LF) in
        ret (tweets ++ [Tweet_zero])
      else
        let* name := lift (index sl 1) in
        let* id := lift (index sl 3) in
        ret (tweets ++ [mkTweet (statusf p) name Time_zero "" id])
  end.

(** Callback of the second [Each]: the guard is [i > len(tweets)]. *)
Definition scrapeTimestamp (i : nat) (sel : Node) (tweets : list Tweet)
    : M (list Tweet) :=
  match Attr sel "title" with
  | None =>
      let* _ := logf ("tweet " +:+ pretty i +:+ ": could not get timestamp" +:+ LF) in
      ret tweets
  | Some t =>
      if length tweets <? i then
        let* _ := logf ("timestamp: found " +:+ pretty i +:+ " timestamps, only "
                      +:+ pretty (length tweets) +:+ " tweets exist" +:+ LF) in
        ret tweets
      else
        let* tme := match time_Parse timeLayout t with
                  | inl tme => ret tme
                  | inr _ =>
                      let* _ := logf ("tweet " +:+ pretty i
                                    +:+ ": timestamp: could not parse time "
                                    +:+ t +:+ LF) in
                      ret Time_zero
                  end in
        let* tw := lift (index tweets i) in
        ret (<[i := with_Timestamp tme tw]> tweets)
  end.

(** Callback of the third [Each]: the guard is [i > len(tweets)]. *)
Definition scrapeContents (i : nat) (sel : Node) (tweets : list Tweet)
    : M (list Tweet) :=
  let t := Trim (Text sel) (" " +:+ LF) in
  if decide (t = "") then
    let* _ := logf ("tweet " +:+ pretty i +:+ ": contents were empty" +:+ LF) in
    ret tweets
  else if length tweets <? i then
    let* _ := logf ("text: found " +:+ pretty i +:+ " contents, only "
                  +:+ pretty (length tweets) +:+ " tweets exist" +:+ LF) in
    ret tweets
  else
    let* tw := lift (index tweets i) in
    ret (<[i := with_Contents t tw]> tweets).

Definition pass1 (sel : list Node) : M (list Tweet) :=
  Each sel scrapePermalink [].

Definition pass2 (doc : Document) (tweets : list Tweet) : M (list Tweet) :=
  Each (Find doc selTimestamp) scrapeTimestamp tweets.

Definition pass3 (doc : Document) (tweets : list Tweet) : M (list Tweet) :=
  Each (Find doc selContents) scrapeContents tweets.

(** The body of [tweets] from the first [Each] to its [return]. *)
Definition passes (doc : Document) (sel : list Node) : M (list Tweet) :=
  let* tweets := pass1 sel in
  let* tweets := pass2 doc tweets in
  let* tweets := pass3 doc tweets in
  let* _ := logf (pretty (length tweets) +:+ " tweets processed" +:+ LF) in
  ret tweets.

End Extraction.

(** ** Requests *)

Section Requests.
Context `{Env}.

(** [http.Get(raw)]: the request joins the requests made so far. *)
Definition http_Get (raw : string) : M (string + string) :=
  λ p, (Val (http_Get_body (sent p) raw),
        mkProc (sent p ++ [raw]) (sink p) (pkg_minID p) (pkg_Verbose p)).

Definition write (line : string) : M unit :=
  λ p, (Val (), mkProc (sent p) (sink p ++ [line]) (pkg_minID p) (pkg_Verbose p)).

Definition searchf (q since until : string) : string :=
  "https://twitter.com/i/search/timeline?f=tweets&vertical=default&q="
  +:+ q +:+ " since:" +:+ since +:+ " until:" +:+ until +:+ "&src=typd".

Definition df : string := "2006-01-02".

(** The URL of the search before any cursor is added. *)
Definition baseURL (search : string) (start until : Time) : string :=
  Replace (searchf (url_QueryEscape search) (Time_Format start df)
                   (Time_Format until df))
          " " "%20".

Definition max_position (maxID minID : string) : string :=
  "&max_position=TWEET-" +:+ maxID +:+ "-" +:+ minID.

End Requests.

(** ** The methods of [Scrape] *)

Section ScrapeMethods.
Context `{Env}.

(** [type Scrape struct { Info io.Writer }]: [Info] is [true] when the
    field holds a writer and [false] when it is nil; what the writer has
    received is [sink]. *)
Record Scrape : Type := mkScrape { Info : bool }.

Definition infof (s : Scrape) (line : string) : M unit :=
  if Info s then write line else ret ().

(** [u] is a [*url.URL]; [None] is the nil pointer, on which the method
    [String] cannot be called. *)
Definition getHTML (s : Scrape) (u : option URL) : M (string * option error) :=
  match u with
  | None => lift (Panic "nil pointer dereference")
  | Some u =>
      let raw := URL_String u in
      let* _ := infof s ("fetching " +:+ raw +:+ LF) in
      let* resp := http_Get raw in
      match resp with
      | inr err => ret ("", Some (Errorf ("GET " +:+ raw +:+ ": " +:+ err)))
      | inl body =>
          match json_Decode_items_html body with
          | inr err => ret ("", Some (Errorf ("could not decode: " +:+ err)))
          | inl html => ret (html, None)
          end
      end
  end.

Definition tweets (s : Scrape) (u : option URL) : M (list Tweet * option error) :=
  let* r := getHTML s u in
  match r with
  | (_, Some err) => ret ([], Some (Errorf ("tweets: " +:+ Error err)))
  | (html, None) =>
      match goquery_NewDocumentFromReader html with
      | inr err => ret ([], Some (Errorf ("tweets: " +:+ err)))
      | inl doc =>
          match Find doc selTweet with
          | [] => ret ([], Some errNoTweets)
          | sel =>
              let* tweets := passes (infof s) doc sel in
              ret (tweets, None)
          end
      end
  end.

(** The closure [f] of [Tweets]; it reads the variable [minID] of the
    enclosing call, which is passed here. *)
Definition f (search : string) (start until : Time) (minID : string)
    (maxID : string) : option URL * option error :=
  let raw := baseURL search start until in
  let raw := if decide (maxID ≠ "") then raw +:+ max_position maxID minID
             else raw in
  match url_Parse raw with
  | inr err => (None, Some (Errorf ("parse " +:+ raw +:+ ": " +:+ err)))
  | inl u => (Some u, None)
  end.

(** The variables of [Tweets] that live across iterations. *)
Record Vars : Type := mkVars {
  minID : string;
  maxID : string;
  t : list Tweet
}.

Definition Vars_init : Vars := mkVars "" "" [].

(** How one iteration of [for] ends: at the closing brace, or by leaving
    the function with its two results ([break loop] leads to
    [return t, nil]). *)
Inductive flow (V : Type) : Type :=
  | Next (v : V)
  | Return (r : list Tweet * option error).
Arguments Next {V} v.
Arguments Return {V} r.

Definition Tweets_iter (s : Scrape) (search : string) (start until : Time)
    (v : Vars) : M (flow Vars) :=
  match f search start until (minID v) (maxID v) with
  | (_, Some err) => ret (Return ([], Some err))
  | (u, None) =>
      let* r := tweets s u in
      match r with
      | (_, Some err) =>
          if decide (err = errNoTweets) then ret (Return (t v, None))
          else ret (Return ([], Some err))
      | (tw, None) =>
          let* minID' := if decide (minID v = "")
                         then let* tw0 := lift (index tw 0) in ret (ID tw0)
                         else ret (minID v) in
          let t' := t v ++ tw in
          let* last := lift (index tw (length tw - 1)) in
          let maxID' := ID last in
          if decide (maxID' = minID') then ret (Return (t', None))
          else ret (Next (mkVars minID' maxID' t'))
      end
  end.

(** The loop, for at most [fuel] iterations; [None] when they do not
    suffice. *)
Fixpoint Tweets_loop (fuel : nat) (s : Scrape) (search : string)
    (start until : Time) (v : Vars) : M (option (list Tweet * option error)) :=
  match fuel with
  | 0 => ret None
  | S fuel' =>
      let* fl := Tweets_iter s search start until v in
      match fl with
      | Return r => ret (Some r)
      | Next v' => Tweets_loop fuel' s search start until v'
      end
  end.

Definition Tweets (fuel : nat) (s : Scrape) (search : string)
    (start until : Time) : M (option (list Tweet * option error)) :=
  Tweets_loop fuel s search start until Vars_init.

End ScrapeMethods.

Arguments Next {_ V} v.
Arguments Return {_ V} r.

(** ** The earlier revision: package-level functions and [minID] *)

Module Pkg.
Section Functions.
Context `{Env}.

(** [Out] is the writer whose contents are [sink]. *)
Definition logf (line : string) : M unit :=
  λ p, if pkg_Verbose p then write line p else ret () p.

Definition get_minID : M string := λ p, (Val (pkg_minID p), p).

Definition set_minID (id : string) : M unit :=
  λ p, (Val (), mkProc (sent p) (sink p) id (pkg_Verbose p)).

Definition getHTML (url : string) : M (string * option error) :=
  let* _ := logf ("fetching " +:+ url +:+ LF) in
  let* resp := http_Get url in
  match resp with
  | inr err => ret ("", Some (Errorf ("GET " +:+ url +:+ ": " +:+ err)))
  | inl body =>
      match json_Decode_items_html body with
      | inr err => ret ("", Some (Errorf ("could not decode: " +:+ err)))
      | inl html => ret (html, None)
      end
  end.

Definition tweets (url : string) : M (list Tweet * option error) :=
  let* r := getHTML url in
  match r with
  | (_, Some err) => ret ([], Some (Errorf ("tweets: " +:+ Error err)))
  | (html, None) =>
      match goquery_NewDocumentFromReader html with
      | inr err => ret ([], Some (Errorf ("tweets: " +:+ err)))
      | inl doc =>
          match Find doc selTweet with
          | [] => ret ([], Some errNoTweets)
          | sel =>
              let* tweets := passes logf doc sel in
              ret (tweets, None)
          end
      end
  end.

Definition f (search : string) (start until : Time) (maxID : string)
    : M string :=
  let u := baseURL search start until in
  if decide (maxID ≠ "") then
    let* minID := get_minID in
    ret (u +:+ max_position maxID minID)
  else ret u.

(** The variables of [Tweets] that live across iterations; [minID] is not
    among them. *)
Record Vars : Type := mkVars {
  maxID : string;
  t : list Tweet
}.

Definition Vars_init : Vars := mkVars "" [].

Definition Tweets_iter (search : string) (start until : Time) (v : Vars)
    : M (flow Vars) :=
  let* u := f search start until (maxID v) in
  let* r := tweets u in
  match r with
  | (_, Some err) =>
      if decide (err = errNoTweets) then ret (Return (t v, None))
      else ret (Return ([], Some err))
  | (tw, None) =>
      let* minID := get_minID in
      let* _ := if decide (minID = "")
                then let* tw0 := lift (index tw 0) in set_minID (ID tw0)
                else ret () in
      let t' := t v ++ tw in
      let* last := lift (index tw (length tw - 1)) in
      let maxID' := ID last in
      let* minID := get_minID in
      if decide (maxID' = minID) then ret (Return (t', None))
      else ret (Next (mkVars maxID' t'))
  end.

Fixpoint Tweets_loop (fuel : nat) (search : string) (start until : Time)
    (v : Vars) : M (option (list Tweet * option error)) :=
  match fuel with
  | 0 => ret None
  | S fuel' =>
      let* fl := Tweets_iter search start until v in
      match fl with
      | Return r => ret (Some r)
      | Next v' => Tweets_loop fuel' search start until v'
      end
  end.

Definition Tweets (fuel : nat) (search : string) (start until : Time)
    : M (option (list Tweet * option error)) :=
  Tweets_loop fuel search start until Vars_init.

End Functions.
End Pkg.

(** ** The first revision: one page, no cursor *)

Module V0.
Section Functions.
Context `{Env}.

(** [goquery.NewDocument(url)], which fetches and parses in one call: the
    document, or the text of the error, given the requests made before. *)
Variable goquery_NewDocument : list string → string → Document + string.

(** [type Tweet struct] of this revision: there is no [ID]. *)
Record Tweet : Type := mkTweet {
  Permalink : string;
  Name : string;
  Timestamp : Time;
  Contents : string
}.

Definition with_Timestamp (tme : Time) (tw : Tweet) : Tweet :=
  mkTweet (Permalink tw) (Name tw) tme (Contents tw).

Definition with_Contents (c : string) (tw : Tweet) : Tweet :=
  mkTweet (Permalink tw) (Name tw) (Timestamp tw) c.

Definition searchf (q since until : string) : string :=
  "https://twitter.com/search?f=tweets&vertical=default&q="
  +:+ q +:+ " since:" +:+ since +:+ " until:" +:+ until +:+ "&src=typd".

Definition timeLayout : string := "3:04 PM - 02 Jan 2006".

Definition NewDocument (url : string) : M (Document + string) :=
  λ p, (Val (goquery_NewDocument (sent p) url),
        mkProc (sent p ++ [url]) (sink p) (pkg_minID p) (pkg_Verbose p)).

(** Callback of the first [Each]: a missing attribute is logged and read
    as the empty string. *)
Definition scrapePermalink (i : nat) (sel : Node) (tweets : list Tweet)
    : M (list Tweet) :=
  let* p := match Attr sel "data-permalink-path" with
            | Some p => ret p
            | None =>
                let* _ := Pkg.logf ("tweet " +:+ pretty i
                                    +:+ ": could not get permalink" +:+ LF) in
                ret ""
            end in
  let* n := match Attr sel "data-screen-name" with
            | Some n => ret n
            | None =>
                let* _ := Pkg.logf ("tweet " +:+ pretty i
                                    +:+ ": could not get screen name" +:+ LF) in
                ret ""
            end in
  ret (tweets ++ [mkTweet (statusf p) n Time_zero ""]).

Definition scrapeTimestamp (i : nat) (sel : Node) (tweets : list Tweet)
    : M (list Tweet) :=
  match Attr sel "title" with
  | None =>
      let* _ := Pkg.logf ("tweet " +:+ pretty i +:+ ": could not get timestamp"
                          +:+ LF) in
      ret tweets
  | Some t =>
      if length tweets <? i then
        let* _ := Pkg.logf ("timestamp: found " +:+ pretty i
                            +:+ " timestamps, only " +:+ pretty (length tweets)
                            +:+ " tweets exist" +:+ LF) in
        ret tweets
      else
        let* tme := match time_Parse timeLayout t with
                    | inl tme => ret tme
                    | inr _ =>
                        let* _ := Pkg.logf ("tweet " +:+ pretty i
                                            +:+ ": timestamp: could not parse time "
                                            +:+ t +:+ LF) in
                        ret Time_zero
                    end in
        let* tw := lift (index tweets i) in
        ret (<[i := with_Timestamp tme tw]> tweets)
  end.

Definition scrapeContents (i : nat) (sel : Node) (tweets : list Tweet)
    : M (list Tweet) :=
  let t := Trim (Text sel) (" " +:+ LF) in
  if decide (t = "") then
    let* _ := Pkg.logf ("tweet " +:+ pretty i +:+ ": contents were empty" +:+ LF) in
    ret tweets
  else if length tweets <? i then
    let* _ := Pkg.logf ("text: found " +:+ pretty i +:+ " contents, only "
                        +:+ pretty (length tweets) +:+ " tweets exist" +:+ LF) in
    ret tweets
  else
    let* tw := lift (index tweets i) in
    ret (<[i := with_Contents t tw]> tweets).

Definition URL_of (search : string) (start until : Time) : string :=
  Replace (searchf (url_QueryEscape search) (Time_Format start df)
                   (Time_Format until df))
          " " "%20".

Definition Tweets (search : string) (start until : Time)
    : M (list Tweet * option error) :=
  let URL := URL_of search start until in
  let* _ := Pkg.logf ("fetching " +:+ URL +:+ LF) in
  let* r := NewDocument URL in
  match r with
  | inr err => ret ([], Some (Errorf ("tweets: " +:+ err)))
  | inl doc =>
      match Find doc selTweet with
      | [] => ret ([], Some (Errorf "tweets: no tweets found"))
      | sel =>
          let* tweets := Each sel scrapePermalink [] in
          let* tweets := Each (Find doc selTimestamp) scrapeTimestamp tweets in
          let* tweets := Each (Find doc selContents) scrapeContents tweets in
          ret (tweets, None)
      end
  end.

(** What the first callback appends for a node. *)
Definition tweet_of (n : Node) : Tweet :=
  mkTweet (statusf (default "" (Attr n "data-permalink-path")))
          (default "" (Attr n "data-screen-name")) Time_zero "".

Definition stamp_with (on : option Node) (tw : Tweet) : Tweet :=
  match on with
  | None => tw
  | Some m =>
      match Attr m "title" with
      | None => tw
      | Some t =>
          with_Timestamp (match time_Parse timeLayout t with
                          | inl tme => tme
                          | inr _ => Time_zero
                          end) tw
      end
  end.

Definition contents_with (on : option Node) (tw : Tweet) : Tweet :=
  match on with
  | None => tw
  | Some m =>
      let t := Trim (Text m) (" " +:+ LF) in
      if decide (t = "") then tw else with_Contents t tw
  end.

Definition record_at (doc : Document) (i : nat) : option Tweet :=
  (λ n, contents_with (Find doc selContents !! i)
          (stamp_with (Find doc selTimestamp !! i) (tweet_of n)))
  <$> Find doc selTweet !! i.

End Functions.
End V0.

(** ** A concrete environment to run the code in

    [url.QueryEscape] is written out; a time is kept as its text; a URL is
    its text; a page is the three selections the code asks for; the site
    says what each request is answered, and [parse] what markup each
    payload holds.  An empty body does not decode (the decoder reports
    [EOF]). *)

Module Fixture.

(** The hexadecimal digit of four bits, the lowest first. *)
Definition hex_digit (b0 b1 b2 b3 : bool) : ascii :=
  match b3, b2, b1, b0 with
  | false, false, false, false => "0" | false, false, false, true => "1"
  | false, false, true, false => "2" | false, false, true, true => "3"
  | false, true, false, false => "4" | false, true, false, true => "5"
  | false, true, true, false => "6" | false, true, true, true => "7"
  | true, false, false, false => "8" | true, false, false, true => "9"
  | true, false, true, false => "A" | true, false, true, true => "B"
  | true, true, false, false => "C" | true, true, false, true => "D"
  | true, true, true, false => "E" | true, true, true, true => "F"
  end%char.

Fixpoint mem (c : ascii) (s : string) : bool :=
  match s with
  | "" => false
  | String d s' => if Ascii.eqb c d then true else mem c s'
  end.

(** The bytes [url.QueryEscape] leaves as they are. *)
Definition unreserved (c : ascii) : bool :=
  mem c "ABCDEFGHIJKLMNOPQRSTUVWXYZabcdefghijklmnopqrstuvwxyz0123456789-_.~".

Definition escape (c : ascii) : string :=
  match c with
  | Ascii b0 b1 b2 b3 b4 b5 b6 b7 =>
      String "%" (String (hex_digit b4 b5 b6 b7) (String (hex_digit b0 b1 b2 b3) ""))
  end.

Fixpoint QueryEscape (s : string) : string :=
  match s with
  | "" => ""
  | String c s' =>
      if unreserved c then String c (QueryEscape s')
      else if Ascii.eqb c " " then String "+" (QueryEscape s')
      else escape c +:+ QueryEscape s'
  end.

Record FNode : Type := mkNode {
  attrs : list (string * string);
  text : string
}.

Fixpoint assoc (k : string) (l : list (string * string)) : option string :=
  match l with
  | [] => None
  | (k', v) :: l' => if String.eqb k k' then Some v else assoc k l'
  end.

Record FDoc : Type := mkDoc {
  tweet_nodes : list FNode;
  timestamp_nodes : list FNode;
  contents_nodes : list FNode
}.

Definition FFind (d : FDoc) (sel : string) : list FNode :=
  if String.eqb sel selTweet then tweet_nodes d
  else if String.eqb sel selTimestamp then timestamp_nodes d
  else if String.eqb sel selContents then contents_nodes d
  else [].

Definition env (site : list string → string → string + string)
    (parse : string → FDoc) : Env := {|
  Time := string;
  Time_zero := "";
  time_Parse := λ _ value, if String.eqb value "" then inr "cannot parse" else inl value;
  Time_Format := λ tme _, tme;
  url_QueryEscape := QueryEscape;
  URL := string;
  url_Parse := inl;
  URL_String := id;
  http_Get_body := site;
  json_Decode_items_html := λ body, if String.eqb body "" then inr "EOF" else inl body;
  Document := FDoc;
  Node := FNode;
  goquery_NewDocumentFromReader := λ html, inl (parse html);
  Find := FFind;
  Attr := λ n k, assoc k (attrs n);
  Text := text
|}.

(** An identity fragment with a permalink, one without, a timestamp
    fragment and a contents fragment. *)
Definition tweet_at (path : string) : FNode :=
  mkNode [("data-permalink-path", path)] "".
Definition tweet_bare : FNode := mkNode [] "".
Definition stamp (title : string) : FNode := mkNode [("title", title)] "".
Definition contents (txt : string) : FNode := mkNode [] txt.

End Fixture.

(** ** Sample sites *)

Module Sample.
Import Fixture.

Definition base : string :=
  Replace (searchf (QueryEscape "go") "2009-11-10" "2009-11-11") " " "%20".

(** A site that answers by URL, whatever was requested before. *)
Fixpoint answer (table : list (string * (string + string))) (url : string)
    : string + string :=
  match table with
  | [] => inl "nothing"
  | (k, r) :: table' => if String.eqb url k then r else answer table' url
  end.

Definition site (table : list (string * (string + string)))
    : list string → string → string + string :=
  λ _ url, answer table url.

Definition page1 : FDoc :=
  mkDoc [tweet_at "/a/status/12"; tweet_at "/b/status/11"]
        [stamp "3:26 PM - 10 Nov 2009"; stamp "3:20 PM - 10 Nov 2009"]
        [contents "first"; contents "second"].

Definition page2 : FDoc :=
  mkDoc [tweet_at "/c/status/10"; tweet_at "/a/status/12"]
        [stamp "3:10 PM - 10 Nov 2009"; stamp "3:26 PM - 10 Nov 2009"]
        [contents "third"; contents "first"].

(** One tweet, two timestamp fragments and two contents fragments. *)
Definition crowded : FDoc :=
  mkDoc [tweet_at "/a/status/1"]
        [stamp "3:26 PM - 10 Nov 2009"; stamp "3:27 PM - 10 Nov 2009"]
        [contents "one"; contents "two"].

(** One tweet and two contents fragments. *)
Definition wordy : FDoc :=
  mkDoc [tweet_at "/a/status/1"] [stamp "3:26 PM - 10 Nov 2009"]
        [contents "one"; contents "two"].

(** The last tweet has no permalink. *)
Definition last_bare : FDoc :=
  mkDoc [tweet_at "/a/status/1"; tweet_bare] [] [].

(** The first tweet has no permalink. *)
Definition first_bare : FDoc :=
  mkDoc [tweet_bare; tweet_at "/a/status/1"] [] [].

Definition two_three : FDoc :=
  mkDoc [tweet_at "/b/status/2"; tweet_at "/b/status/3"] [] [].

Definition only_two : FDoc := mkDoc [tweet_at "/b/status/2"] [] [].

Definition nothing : FDoc := mkDoc [] [] [].

Definition parse (html : string) : FDoc :=
  if String.eqb html "page1" then page1
  else if String.eqb html "page2" then page2
  else if String.eqb html "crowded" then crowded
  else if String.eqb html "wordy" then wordy
  else if String.eqb html "last_bare" then last_bare
  else if String.eqb html "first_bare" then first_bare
  else if String.eqb html "two_three" then two_three
  else if String.eqb html "only_two" then only_two
  else nothing.

Definition world (table : list (string * (string + string))) : Env :=
  env (site table) parse.

(** [page1], then a page that ends on the first tweet of [page1]. *)
Definition round_trip : Env :=
  world [(base, inl "page1");
         (base +:+ "&max_position=TWEET-11-12", inl "page2")].

(** [page1], then the connection fails. *)
Definition cut_off : Env :=
  world [(base, inl "page1");
         (base +:+ "&max_position=TWEET-11-12", inr "connection refused")].

(** [page1], then an empty body. *)
Definition garbled : Env :=
  world [(base, inl "page1");
         (base +:+ "&max_position=TWEET-11-12", inl "")].

(** [page1], then a page without tweets. *)
Definition exhausted : Env :=
  world [(base, inl "page1")].

Definition quiet : Scrape := mkScrape false.
Definition chatty : Scrape := mkScrape true.

End Sample.

(** * The vocabulary of the properties *)

(** ** Computations *)

(** A computation that always returns, and one that makes no request and
    leaves the package-level variables alone. *)
Definition total {A} (m : M A) : Prop :=
  ∀ p, ∃ a p', m p = (Val a, p').

Definition offline {A} (m : M A) : Prop :=
  ∀ p r p', m p = (r, p') →
    sent p' = sent p ∧ pkg_minID p' = pkg_minID p ∧ pkg_Verbose p' = pkg_Verbose p.

(** A computation that only ever adds to what the writer has received. *)
Definition growing {A} (m : M A) : Prop :=
  ∀ p r p', m p = (r, p') → sink p `prefix_of` sink p'.

(** A computation whose result does not depend on the process it runs in. *)
Definition indep {A} (m : M A) : Prop := ∀ p1 p2, (m p1).1 = (m p2).1.

(** ** Pages and iterations *)

Section Vocabulary.
Context `{Env}.

(** What the first callback appends for a node. *)
Definition tweet_of (n : Node) : Tweet :=
  match Attr n "data-permalink-path" with
  | None => Tweet_zero
  | Some p =>
      match Split p "/" with
      | _ :: name :: _ :: id :: _ => mkTweet (statusf p) name Time_zero "" id
      | _ => Tweet_zero
      end
  end.

(** The fields the first pass fills in. *)
Definition identity (tw : Tweet) : string * string * string :=
  (Permalink tw, Name tw, ID tw).

(** The line the first callback logs for the node [n] at index [i], if it
    logs one. *)
Definition permalink_warning (i : nat) (n : Node) : option string :=
  match Attr n "data-permalink-path" with
  | None => Some ("tweet " +:+ pretty i +:+ ": could not get permalink" +:+ LF)
  | Some p =>
      if length (Split p "/") <? 4 then
        Some ("tweet " +:+ pretty i +:+ ": permalink " +:+ p
              +:+ " was not in correct format" +:+ LF)
      else None
  end.

(** The permalink attribute is missing, or its path splits into fewer than
    four parts. *)
Definition no_permalink (n : Node) : Prop :=
  Attr n "data-permalink-path" = None ∨
  ∃ path, Attr n "data-permalink-path" = Some path ∧ length (Split path "/") < 4.

(** The variables after a page [tw] whose first tweet is [first] and whose
    last tweet is [lst] (lines [if minID == ""] to [maxID = ...]). *)
Definition after_page (v : Vars) (first lst : Tweet) (tw : list Tweet) : Vars :=
  mkVars (if decide (minID v = "") then ID first else minID v)
         (ID lst)
         (t v ++ tw).

End Vocabulary.

(** From [v] in [p], the pages [pages] are fetched one after the other,
    each leading to a further iteration, which starts from [v'] in [p']. *)
Inductive turns `{Env} (s : Scrape) (search : string) (start until : Time)
    : list (list Tweet) → Vars → Proc → Vars → Proc → Prop :=
  | turns_nil v p : turns s search start until [] v p v p
  | turns_cons tw pages v p u v1 p1 v' p' :
      f search start until (minID v) (maxID v) = (u, None) →
      tweets s u p = (Val (tw, None), p1) →
      Tweets_iter s search start until v p = (Val (Next v1), p1) →
      turns s search start until pages v1 p1 v' p' →
      turns s search start until (tw :: pages) v p v' p'.

(** A transport failure or a payload that does not decode, for the request
    of [raw] made in [p]; the index is the error [getHTML] returns. *)
Inductive hard_failure `{Env} (p : Proc) (raw : string) : error → Prop :=
  | transport_failure msg :
      http_Get_body (sent p) raw = inr msg →
      hard_failure p raw (Errorf ("GET " +:+ raw +:+ ": " +:+ msg))
  | decode_failure body msg :
      http_Get_body (sent p) raw = inl body →
      json_Decode_items_html body = inr msg →
      hard_failure p raw (Errorf ("could not decode: " +:+ msg)).

(** ** What the passes make of the fragments at one position *)

Section Records.
Context `{Env}.

(** The second callback on a tweet: [on] is the timestamp fragment at the
    position of the tweet, if there is one. *)
Definition stamp_with (on : option Node) (tw : Tweet) : Tweet :=
  match on with
  | None => tw
  | Some m =>
      match Attr m "title" with
      | None => tw
      | Some t =>
          with_Timestamp (match time_Parse timeLayout t with
                          | inl tme => tme
                          | inr _ => Time_zero
                          end) tw
      end
  end.

(** The third callback on a tweet: [on] is the contents fragment at the
    position of the tweet, if there is one. *)
Definition contents_with (on : option Node) (tw : Tweet) : Tweet :=
  match on with
  | None => tw
  | Some m =>
      let t := Trim (Text m) (" " +:+ LF) in
      if decide (t = "") then tw else with_Contents t tw
  end.

(** The tweet at position [i] of a page: the identity fragment at [i],
    then the timestamp fragment at [i], then the contents fragment at [i]. *)
Definition record_at (doc : Document) (i : nat) : option Tweet :=
  (λ n, contents_with (Find doc selContents !! i)
          (stamp_with (Find doc selTimestamp !! i) (tweet_of n)))
  <$> Find doc selTweet !! i.

(** The text [f] hands to [url.Parse]. *)
Definition request_raw (search : string) (start until : Time)
    (minID maxID : string) : string :=
  let raw := baseURL search start until in
  if decide (maxID ≠ "") then raw +:+ max_position maxID minID else raw.

End Records.

(** A computation that moves the process along the relation [R] only. *)
Definition preserves (R : Proc → Proc → Prop) {A} (m : M A) : Prop :=
  ∀ p r p', m p = (r, p') → R p p'.

(** ** Paths *)

(** [strings.Join(segs, sep)] for a separator of one byte. *)
Fixpoint Join (segs : list string) (sep : ascii) : string :=
  match segs with
  | [] => ""
  | [a] => a
  | a :: rest => a +:+ String sep (Join rest sep)
  end.

(** The byte [sep] does not occur in [s]. *)
Fixpoint free_of (sep : ascii) (s : string) : bool :=
  match s with
  | "" => true
  | String c s' => if decide (c = sep) then false else free_of sep s'
  end.

(** ** Sites on which parsing can fail

    As [Sample], with a [url.Parse] that refuses a percent sign not
    followed by two hexadecimal digits, and a document reader that fails on
    one payload. *)

Module Strict.
Import Fixture.

Definition is_hex (c : ascii) : bool := mem c "0123456789abcdefABCDEF".

Fixpoint bad_escape (s : string) : bool :=
  match s with
  | "" => false
  | String c s' =>
      if Ascii.eqb c "%" then
        match s' with
        | String a (String b s'') =>
            if is_hex a && is_hex b then bad_escape s'' else true
        | _ => true
        end
      else bad_escape s'
  end.

(** The last tweet has an ID that cannot stand in a URL. *)
Definition bad_id : FDoc :=
  mkDoc [tweet_at "/a/status/12"; tweet_at "/b/status/%zz"] [] [].

Definition parse (html : string) : FDoc + string :=
  if String.eqb html "unreadable" then inr "unexpected EOF"
  else if String.eqb html "bad_id" then inl bad_id
  else inl (Sample.parse html).

Definition world (table : list (string * (string + string))) : Env := {|
  Time := string;
  Time_zero := "";
  time_Parse := λ _ value, if String.eqb value "" then inr "cannot parse" else inl value;
  Time_Format := λ tme _, tme;
  url_QueryEscape := QueryEscape;
  URL := string;
  url_Parse := λ raw, if bad_escape raw then inr "invalid URL escape" else inl raw;
  URL_String := id;
  http_Get_body := Sample.site table;
  json_Decode_items_html := λ body, if String.eqb body "" then inr "EOF" else inl body;
  Document := FDoc;
  Node := FNode;
  goquery_NewDocumentFromReader := parse;
  Find := FFind;
  Attr := λ n k, assoc k (attrs n);
  Text := text
|}.

(** A first page whose last ID cannot stand in a URL. *)
Definition unparsable : Env := world [(Sample.base, inl "bad_id")].

(** [page1], then a payload the document reader fails on. *)
Definition unreadable : Env :=
  world [(Sample.base, inl "page1");
         (Sample.base +:+ "&max_position=TWEET-11-12", inl "unreadable")].

End Strict.

(** ** The two revisions side by side *)

(** The package-level functions run in [p] as the methods of [s] run in
    [q]: the same requests so far, the same lines written, [Verbose] set
    as [Info] is, and [m] in the package-level [minID]. *)
Definition alike (s : Scrape) (m : string) (q p : Proc) : Prop :=
  sent q = sent p ∧ sink q = sink p ∧ pkg_Verbose p = Info s ∧ pkg_minID p = m.


(** The package-level variables are the same in both processes. *)
Definition same_pkg (p p' : Proc) : Prop :=
  pkg_minID p' = pkg_minID p ∧ pkg_Verbose p' = pkg_Verbose p.

(** * Properties *)

(** ** The monad *)

Lemma bind_Val {A B} (m : M A) (k : A → M B) p a p' :
  m p = (Val a, p') → bind m k p = k a p'.
Proof. intros E. unfold bind. now rewrite E. Qed.

Lemma bind_Panic {A B} (m : M A) (k : A → M B) p msg p' :
  m p = (Panic msg, p') → bind m k p = (Panic msg, p').
Proof. intros E. unfold bind. now rewrite E. Qed.

Lemma bind_inv {A B} (m : M A) (k : A → M B) p b q :
  bind m k p = (Val b, q) →
  ∃ a p', m p = (Val a, p') ∧ k a p' = (Val b, q).
Proof.
  unfold bind. destruct (m p) as [[a|msg] p'] eqn:E; [eauto | discriminate].
Qed.

Lemma offline_ret {A} (a : A) : offline (ret a).
Proof. intros p r p' [= <- <-]. auto. Qed.

Lemma offline_lift {A} (r : res A) : offline (lift r).
Proof. intros p r' p' [= <- <-]. auto. Qed.

Lemma offline_bind {A B} (m : M A) (k : A → M B) :
  offline m → (∀ a, offline (k a)) → offline (bind m k).
Proof.
  intros Hm Hk p r p'. unfold bind.
  destruct (m p) as [[a|msg] p1] eqn:E; destruct (Hm _ _ _ E) as (E1 & E2 & E3).
  - intros Ek. destruct (Hk _ _ _ _ Ek) as (F1 & F2 & F3). repeat split; congruence.
  - intros [= <- <-]. auto.
Qed.

Lemma offline_write line : offline (write line).
Proof. intros p r p' [= <- <-]. auto. Qed.

Lemma total_write line : total (write line).
Proof. intros p. unfold write. eauto. Qed.

Lemma offline_infof s line : offline (infof s line).
Proof. unfold infof. destruct (Info s); [apply offline_write | apply offline_ret]. Qed.

Lemma total_infof s line : total (infof s line).
Proof.
  unfold infof. destruct (Info s); [apply total_write | intros p; unfold ret; eauto].
Qed.

Lemma offline_logf line : offline (Pkg.logf line).
Proof.
  intros p r p'. unfold Pkg.logf.
  destruct (pkg_Verbose p) eqn:E; intros Hm;
    [apply offline_write in Hm | apply offline_ret in Hm];
    now rewrite E in Hm.
Qed.

Lemma total_logf line : total (Pkg.logf line).
Proof.
  intros p. unfold Pkg.logf. destruct (pkg_Verbose p); [apply total_write | unfold ret; eauto].
Qed.

(** ** Slices *)

Lemma index_Val {A} (l : list A) i a : index l i = Val a ↔ l !! i = Some a.
Proof. unfold index. destruct (l !! i); split; congruence. Qed.

Lemma index_lt {A} (l : list A) i : i < length l → ∃ a, index l i = Val a.
Proof.
  intros Hi. destruct (lookup_lt_is_Some_2 l i Hi) as [a Ha].
  exists a. now apply index_Val.
Qed.

Lemma index_ge {A} (l : list A) i :
  length l ≤ i → index l i = Panic "index out of range".
Proof. intros Hi. unfold index. now rewrite lookup_ge_None_2. Qed.

(** ** The three passes *)

Section EachProps.
Context `{Env} {S : Type}.
Implicit Types (cb : nat → Node → S → M S) (nodes : list Node).

Lemma Each_from_inv (P : S → Prop) cb :
  (∀ i n st p st' p', P st → cb i n st p = (Val st', p') → P st') →
  ∀ nodes i st p st' p',
    P st → Each_from i nodes cb st p = (Val st', p') → P st'.
Proof.
  intros Hcb nodes. induction nodes as [|n nodes IH]; intros i st p st' p' HP; simpl.
  - intros [= <- <-]. exact HP.
  - intros Hb. apply bind_inv in Hb as (st1 & p1 & E1 & E2). eauto.
Qed.

Lemma Each_from_offline cb :
  (∀ i n st, offline (cb i n st)) →
  ∀ nodes i st, offline (Each_from i nodes cb st).
Proof.
  intros Hcb nodes. induction nodes as [|n nodes IH]; intros i st; simpl.
  - apply offline_ret.
  - apply offline_bind; auto.
Qed.

End EachProps.

Section Passes.
Context `{Env}.

Variable logf : string → M unit.

Lemma scrapePermalink_Val i n tweets p tweets' p' :
  scrapePermalink logf i n tweets p = (Val tweets', p') →
  tweets' = tweets ++ [tweet_of n].
Proof.
  unfold scrapePermalink, tweet_of.
  destruct (Attr n "data-permalink-path") as [path|].
  - destruct (Split path "/") as [|a [|b [|c [|d l]]]]; simpl;
      try (intros Hb; apply bind_inv in Hb as (? & ? & _ & [= <- <-]); reflexivity).
    intros [= <- <-]. reflexivity.
  - intros Hb. apply bind_inv in Hb as (? & ? & _ & [= <- <-]). reflexivity.
Qed.

Lemma pass1_from_Val nodes : ∀ i tweets p tweets' p',
  Each_from i nodes (scrapePermalink logf) tweets p = (Val tweets', p') →
  tweets' = tweets ++ (tweet_of <$> nodes).
Proof.
  induction nodes as [|n nodes IH]; intros i tweets p tweets' p'; simpl.
  - intros [= <- <-]. now rewrite app_nil_r.
  - intros Hb. apply bind_inv in Hb as (st1 & p1 & E1 & E2).
    apply scrapePermalink_Val in E1 as ->. apply IH in E2 as ->.
    now rewrite <- app_assoc.
Qed.

Lemma scrapeTimestamp_identity i n tweets p tweets' p' :
  scrapeTimestamp logf i n tweets p = (Val tweets', p') →
  identity <$> tweets' = identity <$> tweets.
Proof.
  unfold scrapeTimestamp. destruct (Attr n "title") as [title|].
  - destruct (length tweets <? i).
    + intros Hb. apply bind_inv in Hb as (? & ? & _ & [= <- <-]). reflexivity.
    + intros Hb. apply bind_inv in Hb as (tme & p1 & _ & Hb).
      apply bind_inv in Hb as (tw & p2 & Hi & [= <- <-]).
      injection Hi as Hi _. apply index_Val in Hi.
      rewrite list_fmap_insert. apply list_insert_id.
      rewrite list_lookup_fmap, Hi. reflexivity.
  - intros Hb. apply bind_inv in Hb as (? & ? & _ & [= <- <-]). reflexivity.
Qed.

Lemma scrapeContents_identity i n tweets p tweets' p' :
  scrapeContents logf i n tweets p = (Val tweets', p') →
  identity <$> tweets' = identity <$> tweets.
Proof.
  unfold scrapeContents. destruct (decide _).
  - intros Hb. apply bind_inv in Hb as (? & ? & _ & [= <- <-]). reflexivity.
  - destruct (length tweets <? i).
    + intros Hb. apply bind_inv in Hb as (? & ? & _ & [= <- <-]). reflexivity.
    + intros Hb. apply bind_inv in Hb as (tw & p2 & Hi & [= <- <-]).
      injection Hi as Hi _. apply index_Val in Hi.
      rewrite list_fmap_insert. apply list_insert_id.
      rewrite list_lookup_fmap, Hi. reflexivity.
Qed.

(** When [passes] returns, the first pass has fixed the tweets and their
    identity fields. *)
Lemma passes_identity doc sel p tweets p' :
  passes logf doc sel p = (Val tweets, p') →
  identity <$> tweets = identity <$> (tweet_of <$> sel).
Proof.
  unfold passes, pass1, pass2, pass3, Each. intros Hb.
  apply bind_inv in Hb as (t1 & p1 & E1 & Hb).
  apply bind_inv in Hb as (t2 & p2 & E2 & Hb).
  apply bind_inv in Hb as (t3 & p3 & E3 & Hb).
  apply bind_inv in Hb as (? & ? & _ & [= <- <-]).
  apply pass1_from_Val in E1 as ->. simpl in *.
  apply (Each_from_inv (λ st, identity <$> st = identity <$> (tweet_of <$> sel)))
    in E3; [exact E3 | |].
  - intros ?????? Hst Hcb. apply scrapeContents_identity in Hcb. congruence.
  - apply (Each_from_inv (λ st, identity <$> st = identity <$> (tweet_of <$> sel)))
      in E2; [exact E2 | | reflexivity].
    intros ?????? Hst Hcb. apply scrapeTimestamp_identity in Hcb. congruence.
Qed.

Lemma passes_length doc sel p tweets p' :
  passes logf doc sel p = (Val tweets, p') → length tweets = length sel.
Proof.
  intros Hp. apply passes_identity in Hp.
  apply (f_equal length) in Hp. now rewrite !length_fmap in Hp.
Qed.

End Passes.

Lemma total_ret {A} (a : A) : total (ret a).
Proof. intros p. unfold ret. eauto. Qed.

Lemma total_bind {A B} (m : M A) (k : A → M B) :
  total m → (∀ a, total (k a)) → total (bind m k).
Proof.
  intros Hm Hk p. destruct (Hm p) as (a & p1 & E).
  rewrite (bind_Val _ _ _ _ _ E). apply Hk.
Qed.

Lemma total_lift_index {A} (l : list A) i : i < length l → total (lift (index l i)).
Proof. intros Hi p. destruct (index_lt l i Hi) as [a Ha]. unfold lift. rewrite Ha. eauto. Qed.

Section EachTotal.
Context `{Env} {S : Type}.

Lemma Each_from_total (P : S → Prop) (N : nat) (cb : nat → Node → S → M S) :
  (∀ i n st, P st → i < N → total (cb i n st)) →
  (∀ i n st p st' p', P st → cb i n st p = (Val st', p') → P st') →
  ∀ nodes i st, P st → i + length nodes ≤ N → total (Each_from i nodes cb st).
Proof.
  intros Htot Hinv nodes. induction nodes as [|n nodes IH]; intros i st HP Hlen; simpl.
  - apply total_ret.
  - simpl in Hlen. intros p.
    destruct (Htot i n st HP ltac:(lia) p) as (st1 & p1 & E1).
    rewrite (bind_Val _ _ _ _ _ E1). apply IH; [eauto | lia].
Qed.

End EachTotal.

Section PassesRun.
Context `{Env}.
Variable logf : string → M unit.
Hypothesis logf_total : ∀ line, total (logf line).

Lemma scrapePermalink_total i n tweets : total (scrapePermalink logf i n tweets).
Proof.
  unfold scrapePermalink. destruct (Attr n "data-permalink-path") as [path|].
  - destruct (Split path "/") as [|a [|b [|c [|d l]]]]; simpl;
      try (apply total_bind; [apply logf_total | intros; apply total_ret]).
    apply total_ret.
  - apply total_bind; [apply logf_total | intros; apply total_ret].
Qed.

Lemma pass1_total sel : total (pass1 logf sel).
Proof.
  unfold pass1, Each.
  apply (Each_from_total (λ _, True) (length sel)); auto.
  intros. apply scrapePermalink_total.
Qed.

Lemma scrapeTimestamp_total i n tweets :
  i < length tweets → total (scrapeTimestamp logf i n tweets).
Proof.
  intros Hi. unfold scrapeTimestamp. destruct (Attr n "title") as [title|].
  - destruct (length tweets <? i).
    + apply total_bind; [apply logf_total | intros; apply total_ret].
    + apply total_bind.
      * destruct (time_Parse timeLayout title); [apply total_ret|].
        apply total_bind; [apply logf_total | intros; apply total_ret].
      * intros tme. apply total_bind; [now apply total_lift_index|].
        intros; apply total_ret.
  - apply total_bind; [apply logf_total | intros; apply total_ret].
Qed.

Lemma scrapeContents_total i n tweets :
  i < length tweets → total (scrapeContents logf i n tweets).
Proof.
  intros Hi. unfold scrapeContents. destruct (decide _).
  - apply total_bind; [apply logf_total | intros; apply total_ret].
  - destruct (length tweets <? i).
    + apply total_bind; [apply logf_total | intros; apply total_ret].
    + apply total_bind; [now apply total_lift_index|]. intros; apply total_ret.
Qed.

(** The write of the second and of the third callback at the index
    [len(tweets)], which their guard lets through. *)
Lemma scrapeTimestamp_at_len n tweets title p :
  Attr n "title" = Some title →
  ∃ p', scrapeTimestamp logf (length tweets) n tweets p
        = (Panic "index out of range", p').
Proof.
  intros Ha. unfold scrapeTimestamp. rewrite Ha, Nat.ltb_irrefl.
  assert (Ht : total (match time_Parse timeLayout title with
                      | inl tme => ret tme
                      | inr _ =>
                          let* _ := logf ("tweet " +:+ pretty (length tweets)
                                          +:+ ": timestamp: could not parse time "
                                          +:+ title +:+ LF) in
                          ret Time_zero
                      end)).
  { destruct (time_Parse timeLayout title); [apply total_ret|].
    apply total_bind; [apply logf_total | intros; apply total_ret]. }
  destruct (Ht p) as (tme & p1 & E). rewrite (bind_Val _ _ _ _ _ E).
  exists p1. apply bind_Panic. unfold lift. now rewrite index_ge.
Qed.

Lemma scrapeContents_at_len n tweets p :
  Trim (Text n) (" " +:+ LF) ≠ "" →
  scrapeContents logf (length tweets) n tweets p
  = (Panic "index out of range", p).
Proof.
  intros Ht. unfold scrapeContents. rewrite decide_False by exact Ht.
  rewrite Nat.ltb_irrefl. apply bind_Panic. unfold lift. now rewrite index_ge.
Qed.

(** With no more timestamp and contents fragments than tweets, the passes
    return. *)
Lemma passes_total doc sel :
  length (Find doc selTimestamp) ≤ length sel →
  length (Find doc selContents) ≤ length sel →
  total (passes logf doc sel).
Proof.
  intros H2 H3 p. unfold passes.
  destruct (pass1_total sel p) as (t1 & p1 & E1). rewrite (bind_Val _ _ _ _ _ E1).
  pose proof E1 as L1. apply pass1_from_Val in L1. simpl in L1.
  assert (Hl1 : length t1 = length sel) by (subst t1; now rewrite length_fmap).
  assert (Hstep2 : ∀ i n st q st' q', length st = length sel →
            scrapeTimestamp logf i n st q = (Val st', q') → length st' = length sel).
  { intros ?????? Hst Hcb. apply scrapeTimestamp_identity in Hcb.
    apply (f_equal length) in Hcb. rewrite !length_fmap in Hcb. congruence. }
  assert (Hstep3 : ∀ i n st q st' q', length st = length sel →
            scrapeContents logf i n st q = (Val st', q') → length st' = length sel).
  { intros ?????? Hst Hcb. apply scrapeContents_identity in Hcb.
    apply (f_equal length) in Hcb. rewrite !length_fmap in Hcb. congruence. }
  assert (T2 : total (Each_from 0 (Find doc selTimestamp) (scrapeTimestamp logf) t1)).
  { apply (Each_from_total (λ st, length st = length sel) (length sel));
      [ | exact Hstep2 | exact Hl1 | simpl; lia ].
    intros i n st Hst Hi. simpl in Hst. apply scrapeTimestamp_total. lia. }
  destruct (T2 p1) as (t2 & p2 & E2).
  unfold pass2, Each. rewrite (bind_Val _ _ _ _ _ E2).
  apply (Each_from_inv (λ st, length st = length sel) _ Hstep2) in E2 as Hl2; [|exact Hl1].
  assert (T3 : total (Each_from 0 (Find doc selContents) (scrapeContents logf) t2)).
  { apply (Each_from_total (λ st, length st = length sel) (length sel));
      [ | exact Hstep3 | exact Hl2 | simpl; lia ].
    intros i n st Hst Hi. simpl in Hst. apply scrapeContents_total. lia. }
  destruct (T3 p2) as (t3 & p3 & E3).
  unfold pass3, Each. rewrite (bind_Val _ _ _ _ _ E3).
  destruct (logf_total (pretty (length t3) +:+ " tweets processed" +:+ LF) p3)
    as ([] & p4 & E4).
  rewrite (bind_Val _ _ _ _ _ E4). unfold ret. eauto.
Qed.

Hypothesis logf_offline : ∀ line, offline (logf line).

Lemma passes_offline doc sel : offline (passes logf doc sel).
Proof.
  unfold passes, pass1, pass2, pass3, Each.
  repeat (apply offline_bind; [|intros ?]); try apply offline_ret; try apply logf_offline;
    apply Each_from_offline; intros i n st.
  - unfold scrapePermalink. destruct (Attr n _) as [path|].
    + destruct (_ <? _);
        repeat (apply offline_bind; [|intros ?]);
        auto using offline_ret, offline_lift.
    + apply offline_bind; auto using offline_ret.
  - unfold scrapeTimestamp. destruct (Attr n _) as [title|].
    + destruct (_ <? _);
        repeat (apply offline_bind; [|intros ?]);
        auto using offline_ret, offline_lift.
      destruct (time_Parse _ _); [apply offline_ret|].
      apply offline_bind; auto using offline_ret.
    + apply offline_bind; auto using offline_ret.
  - unfold scrapeContents. destruct (decide _); [|destruct (_ <? _)];
      repeat (apply offline_bind; [|intros ?]);
      auto using offline_ret, offline_lift.
Qed.

End PassesRun.

(** ** One page: [getHTML] and [tweets] *)

Section PageProps.
Context `{Env}.
Implicit Types (s : Scrape) (u : URL).

(** A call of [getHTML] makes exactly one request. *)
Lemma getHTML_sent s u p r p' :
  getHTML s (Some u) p = (r, p') → sent p' = sent p ++ [URL_String u].
Proof.
  unfold getHTML. intros Hg.
  destruct (total_infof s ("fetching " +:+ URL_String u +:+ LF) p) as ([] & p1 & E1).
  rewrite (bind_Val _ _ _ _ _ E1) in Hg. apply offline_infof in E1 as (E1 & _).
  unfold bind, http_Get in Hg. simpl in Hg. rewrite <- E1.
  destruct (http_Get_body (sent p1) (URL_String u)) as [body|err].
  - destruct (json_Decode_items_html body); injection Hg as _ <-; reflexivity.
  - injection Hg as _ <-; reflexivity.
Qed.

(** What [tweets] went through when it returns tweets and no error. *)
Lemma tweets_ok_inv s (u : option URL) p tw p' :
  tweets s u p = (Val (tw, None), p') →
  ∃ u' html doc p1,
    u = Some u' ∧ getHTML s u p = (Val (html, None), p1) ∧
    goquery_NewDocumentFromReader html = inl doc ∧
    Find doc selTweet ≠ [] ∧
    passes (infof s) doc (Find doc selTweet) p1 = (Val tw, p').
Proof.
  unfold tweets. intros Hb. apply bind_inv in Hb as ([html [err|]] & p1 & Hg & Hb);
    [discriminate|].
  destruct u as [u'|]; [|discriminate].
  destruct (goquery_NewDocumentFromReader html) as [doc|] eqn:Hd; [|discriminate].
  destruct (Find doc selTweet) as [|n sel] eqn:Hsel; [discriminate|].
  apply bind_inv in Hb as (tw' & p2 & Hp & [= <- <-]).
  exists u', html, doc, p1. rewrite Hsel. repeat split; auto.
Qed.

Lemma tweets_sent s u p r p' :
  tweets s (Some u) p = (r, p') → sent p' = sent p ++ [URL_String u].
Proof.
  unfold tweets, bind at 1. intros Hb.
  destruct (getHTML s (Some u) p) as [[[html [err|]]|msg] p1] eqn:Hg;
    apply getHTML_sent in Hg.
  - injection Hb as _ <-. exact Hg.
  - destruct (goquery_NewDocumentFromReader html) as [doc|];
      [|injection Hb as _ <-; exact Hg].
    destruct (Find doc selTweet) as [|n sel] eqn:Hsel;
      [injection Hb as _ <-; exact Hg|].
    unfold bind in Hb.
    destruct (passes (infof s) doc (n :: sel) p1) as [[tw'|msg] p2] eqn:Hp;
      apply (passes_offline _ (offline_infof s)) in Hp as (Hp & _);
      injection Hb as _ <-; congruence.
  - injection Hb as _ <-. exact Hg.
Qed.

(** When [tweets] returns tweets and no error, there is one tweet for each
    node of the first selection, which is not empty. *)
Lemma tweets_ok_length s (u : option URL) p tw p' :
  tweets s u p = (Val (tw, None), p') → 0 < length tw.
Proof.
  intros Ht. apply tweets_ok_inv in Ht as (u' & html & doc & p1 & _ & _ & _ & Hne & Hp).
  apply passes_length in Hp. rewrite Hp.
  destruct (Find doc selTweet); [congruence | simpl; lia].
Qed.

(** The error of a failed [getHTML] reaches the caller of [tweets] wrapped
    once more, with no tweets. *)
Lemma tweets_getHTML_err s (u : option URL) p html err p' :
  getHTML s u p = (Val (html, Some err), p') →
  tweets s u p = (Val ([], Some (Errorf ("tweets: " +:+ Error err))), p').
Proof. intros Hg. unfold tweets. now rewrite (bind_Val _ _ _ _ _ Hg). Qed.

(** A page with no node in the first selection gives [errNoTweets]. *)
Lemma tweets_no_nodes s (u : option URL) p html doc p' :
  getHTML s u p = (Val (html, None), p') →
  goquery_NewDocumentFromReader html = inl doc →
  Find doc selTweet = [] →
  tweets s u p = (Val ([], Some errNoTweets), p').
Proof.
  intros Hg Hd Hsel. unfold tweets. rewrite (bind_Val _ _ _ _ _ Hg), Hd, Hsel.
  reflexivity.
Qed.

End PageProps.

(** ** The loop of [Tweets] *)

Section LoopProps.
Context `{Env}.
Variables (s : Scrape) (search : string) (start until : Time).

Lemma Tweets_iter_ok v p u tw p' first lst :
  f search start until (minID v) (maxID v) = (u, None) →
  tweets s u p = (Val (tw, None), p') →
  head tw = Some first → last tw = Some lst →
  Tweets_iter s search start until v p =
    (Val (let v' := after_page v first lst tw in
          if decide (maxID v' = minID v') then Return (t v', None) else Next v'),
     p').
Proof.
  intros Hf Ht Hfirst Hlast. unfold Tweets_iter. rewrite Hf.
  rewrite (bind_Val _ _ _ _ _ Ht). cbv zeta.
  rewrite head_lookup in Hfirst. apply index_Val in Hfirst.
  rewrite last_lookup, <- Nat.sub_1_r in Hlast. apply index_Val in Hlast.
  unfold after_page. simpl.
  destruct (decide (minID v = "")); unfold bind, lift, ret;
    rewrite ?Hfirst, Hlast; destruct (decide (ID lst = _)); reflexivity.
Qed.

Lemma turns_loop pages v p v' p' :
  turns s search start until pages v p v' p' →
  ∀ fuel, Tweets_loop (length pages + fuel) s search start until v p
          = Tweets_loop fuel s search start until v' p'.
Proof.
  induction 1 as [|tw pages v p u v1 p1 v' p' Hf Ht Hi _ IH]; intros fuel; [reflexivity|].
  simpl. rewrite (bind_Val _ _ _ _ _ Hi). apply IH.
Qed.

Lemma Tweets_iter_Next_inv v p u tw p1 v1 :
  f search start until (minID v) (maxID v) = (u, None) →
  tweets s u p = (Val (tw, None), p1) →
  Tweets_iter s search start until v p = (Val (Next v1), p1) →
  ∃ first lst, head tw = Some first ∧ last tw = Some lst ∧
               v1 = after_page v first lst tw ∧ maxID v1 ≠ minID v1.
Proof.
  intros Hf Ht Hi. pose proof (tweets_ok_length _ _ _ _ _ Ht) as Hlen.
  destruct (head tw) as [first|] eqn:Hfirst;
    [|destruct tw; [simpl in Hlen; lia | discriminate]].
  destruct (last tw) as [lst|] eqn:Hlast;
    [|apply last_None in Hlast; subst tw; simpl in Hlen; lia].
  rewrite (Tweets_iter_ok _ _ _ _ _ _ _ Hf Ht Hfirst Hlast) in Hi. cbv zeta in Hi.
  destruct (decide _) as [|Hne]; [discriminate|].
  injection Hi as <-. exists first, lst. repeat split; auto.
Qed.

(** The tweets held after some pages are those held before, followed by
    the pages in the order they were fetched. *)
Lemma turns_t pages v p v' p' :
  turns s search start until pages v p v' p' → t v' = t v ++ concat pages.
Proof.
  induction 1 as [|tw pages v p u v1 p1 v' p' Hf Ht Hi _ IH]; simpl.
  - now rewrite app_nil_r.
  - destruct (Tweets_iter_Next_inv _ _ _ _ _ _ Hf Ht Hi) as (first & lst & _ & _ & -> & _).
    rewrite IH. simpl. now rewrite app_assoc.
Qed.

(** Once [minID] is not empty, no page changes it. *)
Lemma turns_minID pages v p v' p' :
  turns s search start until pages v p v' p' → minID v ≠ "" → minID v' = minID v.
Proof.
  induction 1 as [|tw pages v p u v1 p1 v' p' Hf Ht Hi _ IH]; intros Hne; [reflexivity|].
  destruct (Tweets_iter_Next_inv _ _ _ _ _ _ Hf Ht Hi) as (first & lst & _ & _ & -> & _).
  simpl in IH. rewrite decide_False in IH by exact Hne. auto.
Qed.

(** Every page makes one request: after [pages], as many requests were
    added as there are pages. *)
Lemma turns_sent pages v p v' p' :
  turns s search start until pages v p v' p' →
  length (sent p') = length (sent p) + length pages.
Proof.
  induction 1 as [|tw pages v p u v1 p1 v' p' Hf Ht Hi _ IH]; simpl; [lia|].
  destruct (tweets_ok_inv _ _ _ _ _ Ht) as (u' & _ & _ & _ & -> & _).
  apply tweets_sent in Ht. rewrite IH, Ht, length_app. simpl. lia.
Qed.

End LoopProps.

(** ** How an iteration ends when [tweets] reports an error *)

Section LoopExits.
Context `{Env}.
Variables (s : Scrape) (search : string) (start until : Time).

Lemma Tweets_iter_errNoTweets v p u tw p' :
  f search start until (minID v) (maxID v) = (u, None) →
  tweets s u p = (Val (tw, Some errNoTweets), p') →
  Tweets_iter s search start until v p = (Val (Return (t v, None)), p').
Proof.
  intros Hf Ht. unfold Tweets_iter. rewrite Hf, (bind_Val _ _ _ _ _ Ht).
  reflexivity.
Qed.

Lemma Tweets_iter_Errorf v p u tw msg p' :
  f search start until (minID v) (maxID v) = (u, None) →
  tweets s u p = (Val (tw, Some (Errorf msg)), p') →
  Tweets_iter s search start until v p
  = (Val (Return ([], Some (Errorf msg))), p').
Proof.
  intros Hf Ht. unfold Tweets_iter. rewrite Hf, (bind_Val _ _ _ _ _ Ht).
  reflexivity.
Qed.

(** After [pages], an iteration that leaves the function decides the
    results of the whole call, whatever fuel is left. *)
Lemma Tweets_returns p0 pages v p r p' fuel :
  turns s search start until pages Vars_init p0 v p →
  Tweets_iter s search start until v p = (Val (Return r), p') →
  length pages < fuel →
  Tweets fuel s search start until p0 = (Val (Some r), p').
Proof.
  intros Hturns Hi Hfuel. unfold Tweets.
  replace fuel with (length pages + S (fuel - length pages - 1)) by lia.
  rewrite (turns_loop _ _ _ _ _ _ _ _ _ Hturns). simpl.
  now rewrite (bind_Val _ _ _ _ _ Hi).
Qed.

End LoopExits.

Lemma getHTML_hard_failure `{Env} s u p err :
  hard_failure p (URL_String u) err →
  ∃ p', getHTML s (Some u) p = (Val ("", Some err), p').
Proof.
  intros Hfail. unfold getHTML.
  destruct (total_infof s ("fetching " +:+ URL_String u +:+ LF) p) as ([] & p1 & E1).
  rewrite (bind_Val _ _ _ _ _ E1). apply offline_infof in E1 as (E1 & _).
  unfold bind, http_Get. rewrite E1.
  destruct Hfail as [msg Hget | body msg Hget Hdec]; rewrite Hget; [|rewrite Hdec];
    unfold ret; eauto.
Qed.

(** ** The loop: bounds, termination and errors *)

(** C10. Whenever [Scrape.tweets] returns without error, the tweets it
    returns are not empty: [tw[0]] and [tw[len(tw)-1]] are in range, and
    the iteration of [Tweets] that made the call does not panic. *)
Theorem tweets_ok_nonempty `{Env} (s : Scrape) (u : option URL) (p : Proc)
    (tw : list Tweet) (p' : Proc) :
  tweets s u p = (Val (tw, None), p') →
  tw ≠ [] ∧
  (∃ first, index tw 0 = Val first) ∧
  (∃ lst, index tw (length tw - 1) = Val lst) ∧
  (∀ search start until v,
     f search start until (minID v) (maxID v) = (u, None) →
     ∃ fl, Tweets_iter s search start until v p = (Val fl, p')).
Proof.
  intros Ht. pose proof (tweets_ok_length _ _ _ _ _ Ht) as Hlen.
  destruct (index_lt tw 0 Hlen) as [first Hfirst].
  destruct (index_lt tw (length tw - 1) ltac:(lia)) as [lst Hlst].
  split; [intros ->; simpl in Hlen; lia|].
  split; [eauto|]. split; [eauto|].
  intros search start until v Hf.
  apply index_Val in Hfirst, Hlst.
  rewrite <- head_lookup in Hfirst.
  rewrite Nat.sub_1_r, <- last_lookup in Hlst.
  rewrite (Tweets_iter_ok _ _ _ _ _ _ _ _ _ _ _ Hf Ht Hfirst Hlst). eauto.
Qed.

Lemma tweets_ok_nonempty_witness :
  ∃ tw p',
    @tweets Sample.round_trip Sample.chatty (Some Sample.base) Proc_init
    = (Val (tw, None), p') ∧ tw ≠ [].
Proof.
  eexists _, _. split; [vm_compute; reflexivity|].
  eapply (@tweets_ok_nonempty Sample.round_trip Sample.chatty (Some Sample.base)
            Proc_init).
  vm_compute; reflexivity.
Defined.

(** C2. In any iteration of the loop of [Scrape.Tweets], if after the page
    has been processed [maxID] (the ID of its last tweet) equals [minID],
    the call returns at once with the tweets held so far and this page:
    the requests made are those made before the page and the one that
    fetched it, and no other. *)
Theorem Tweets_stops_when_maxID_is_minID `{Env} (s : Scrape) (search : string)
    (start until : Time) (p0 : Proc) (pages : list (list Tweet)) (v : Vars)
    (p : Proc) (u : option URL) (tw : list Tweet) (p' : Proc)
    (first lst : Tweet) (fuel : nat) :
  turns s search start until pages Vars_init p0 v p →
  f search start until (minID v) (maxID v) = (u, None) →
  tweets s u p = (Val (tw, None), p') →
  head tw = Some first → last tw = Some lst →
  maxID (after_page v first lst tw) = minID (after_page v first lst tw) →
  length pages < fuel →
  Tweets fuel s search start until p0 = (Val (Some (t v ++ tw, None)), p') ∧
  ∃ u', u = Some u' ∧ sent p' = sent p ++ [URL_String u'].
Proof.
  intros Hturns Hf Ht Hfirst Hlast Heq Hfuel. split.
  - apply (Tweets_returns _ _ _ _ _ pages v p); [exact Hturns | | exact Hfuel].
    rewrite (Tweets_iter_ok _ _ _ _ _ _ _ _ _ _ _ Hf Ht Hfirst Hlast). cbv zeta.
    now rewrite decide_True by exact Heq.
  - destruct (tweets_ok_inv _ _ _ _ _ Ht) as (u' & _ & _ & _ & -> & _).
    exists u'. split; [reflexivity|]. now apply tweets_sent in Ht.
Qed.

Lemma Tweets_stops_when_maxID_is_minID_witness :
  ∃ r p',
    @Tweets Sample.round_trip 5 Sample.quiet "go" "2009-11-10" "2009-11-11"
            Proc_init = (Val (Some (r, None)), p') ∧
    length r = 4 ∧ length (sent p') = 2.
Proof.
  pose (E := Sample.round_trip).
  pose (tw1 := [@mkTweet E "https://www.twitter.com/a/status/12" "a"
                        "3:26 PM - 10 Nov 2009" "first" "12";
                @mkTweet E "https://www.twitter.com/b/status/11" "b"
                        "3:20 PM - 10 Nov 2009" "second" "11"]).
  pose (tw2 := [@mkTweet E "https://www.twitter.com/c/status/10" "c"
                        "3:10 PM - 10 Nov 2009" "third" "10";
                @mkTweet E "https://www.twitter.com/a/status/12" "a"
                        "3:26 PM - 10 Nov 2009" "first" "12"]).
  pose (v1 := @mkVars E "12" "11" tw1).
  pose (p1 := mkProc [Sample.base] [] "" false).
  pose (p2 := mkProc [Sample.base; Sample.base +:+ "&max_position=TWEET-11-12"]
                     [] "" false).
  destruct (@Tweets_stops_when_maxID_is_minID E Sample.quiet "go" "2009-11-10"
              "2009-11-11" Proc_init [tw1] v1 p1
              (Some (Sample.base +:+ "&max_position=TWEET-11-12")) tw2 p2
              (@mkTweet E "https://www.twitter.com/c/status/10" "c"
                       "3:10 PM - 10 Nov 2009" "third" "10")
              (@mkTweet E "https://www.twitter.com/a/status/12" "a"
                       "3:26 PM - 10 Nov 2009" "first" "12") 5) as [Hrun _].
  - eapply (turns_cons _ _ _ _ tw1 [] Vars_init Proc_init (Some Sample.base) v1 p1).
    + vm_compute; reflexivity.
    + vm_compute; reflexivity.
    + vm_compute; reflexivity.
    + apply turns_nil.
  - vm_compute; reflexivity.
  - vm_compute; reflexivity.
  - reflexivity.
  - reflexivity.
  - reflexivity.
  - simpl; lia.
  - eexists _, _. split; [exact Hrun|]. split; reflexivity.
Defined.

(** C6. In any call of [Scrape.Tweets], when the request of some
    iteration fails in transport or its payload does not decode, the call
    returns at once no tweets (nil) and the error, whatever tweets the
    earlier pages had given. *)
Theorem Tweets_hard_failure_returns_nil `{Env} (s : Scrape) (search : string)
    (start until : Time) (p0 : Proc) (pages : list (list Tweet)) (v : Vars)
    (p : Proc) (u : URL) (err : error) (fuel : nat) :
  turns s search start until pages Vars_init p0 v p →
  f search start until (minID v) (maxID v) = (Some u, None) →
  hard_failure p (URL_String u) err →
  length pages < fuel →
  ∃ p', Tweets fuel s search start until p0
        = (Val (Some ([], Some (Errorf ("tweets: " +:+ Error err)))), p') ∧
        sent p' = sent p ++ [URL_String u].
Proof.
  intros Hturns Hf Hfail Hfuel.
  destruct (getHTML_hard_failure s u p err Hfail) as (p' & Hg).
  apply tweets_getHTML_err in Hg as Ht.
  exists p'. split.
  - apply (Tweets_returns _ _ _ _ _ pages v p); [exact Hturns | | exact Hfuel].
    now apply (Tweets_iter_Errorf _ _ _ _ _ _ (Some u) []).
  - now apply tweets_sent in Ht.
Qed.

Lemma Tweets_hard_failure_returns_nil_witness :
  ∃ p',
    @Tweets Sample.cut_off 5 Sample.quiet "go" "2009-11-10" "2009-11-11"
            Proc_init
    = (Val (Some ([], Some (Errorf ("tweets: GET " +:+ Sample.base
                                     +:+ "&max_position=TWEET-11-12"
                                     +:+ ": connection refused")))), p').
Proof.
  pose (E := Sample.cut_off).
  pose (tw1 := [@mkTweet E "https://www.twitter.com/a/status/12" "a"
                        "3:26 PM - 10 Nov 2009" "first" "12";
                @mkTweet E "https://www.twitter.com/b/status/11" "b"
                        "3:20 PM - 10 Nov 2009" "second" "11"]).
  pose (v1 := @mkVars E "12" "11" tw1).
  pose (p1 := mkProc [Sample.base] [] "" false).
  destruct (@Tweets_hard_failure_returns_nil E Sample.quiet "go" "2009-11-10"
              "2009-11-11" Proc_init [tw1] v1 p1
              (Sample.base +:+ "&max_position=TWEET-11-12")
              (Errorf ("GET " +:+ (Sample.base +:+ "&max_position=TWEET-11-12")
                       +:+ ": " +:+ "connection refused")) 5)
    as (p' & Hrun & _).
  - eapply (turns_cons _ _ _ _ tw1 [] Vars_init Proc_init (Some Sample.base) v1 p1).
    + vm_compute; reflexivity.
    + vm_compute; reflexivity.
    + vm_compute; reflexivity.
    + apply turns_nil.
  - vm_compute; reflexivity.
  - apply (@transport_failure E). vm_compute; reflexivity.
  - simpl; lia.
  - exists p'. exact Hrun.
Defined.

(** C7. In any call of [Scrape.Tweets], a page whose first selection has
    no node ([errNoTweets]) is not an error: the loop stops and the call
    returns the tweets of all pages fetched so far, in order, and a nil
    error. *)
Theorem Tweets_errNoTweets_returns_accumulated `{Env} (s : Scrape)
    (search : string) (start until : Time) (p0 : Proc)
    (pages : list (list Tweet)) (v : Vars) (p : Proc) (u : option URL)
    (html : string) (doc : Document) (p' : Proc) (fuel : nat) :
  turns s search start until pages Vars_init p0 v p →
  f search start until (minID v) (maxID v) = (u, None) →
  getHTML s u p = (Val (html, None), p') →
  goquery_NewDocumentFromReader html = inl doc →
  Find doc selTweet = [] →
  length pages < fuel →
  tweets s u p = (Val ([], Some errNoTweets), p') ∧
  Tweets fuel s search start until p0 = (Val (Some (concat pages, None)), p').
Proof.
  intros Hturns Hf Hg Hd Hsel Hfuel.
  pose proof (tweets_no_nodes _ _ _ _ _ _ Hg Hd Hsel) as Ht.
  split; [exact Ht|].
  apply turns_t in Hturns as Hacc. simpl in Hacc. rewrite <- Hacc.
  apply (Tweets_returns _ _ _ _ _ pages v p); [exact Hturns | | exact Hfuel].
  now apply (Tweets_iter_errNoTweets _ _ _ _ _ _ u []).
Qed.

Lemma Tweets_errNoTweets_returns_accumulated_witness :
  ∃ r p',
    @Tweets Sample.exhausted 5 Sample.quiet "go" "2009-11-10" "2009-11-11"
            Proc_init = (Val (Some (r, None)), p') ∧ length r = 2.
Proof.
  pose (E := Sample.exhausted).
  pose (tw1 := [@mkTweet E "https://www.twitter.com/a/status/12" "a"
                        "3:26 PM - 10 Nov 2009" "first" "12";
                @mkTweet E "https://www.twitter.com/b/status/11" "b"
                        "3:20 PM - 10 Nov 2009" "second" "11"]).
  pose (v1 := @mkVars E "12" "11" tw1).
  pose (p1 := mkProc [Sample.base] [] "" false).
  pose (p2 := mkProc [Sample.base; Sample.base +:+ "&max_position=TWEET-11-12"]
                     [] "" false).
  destruct (@Tweets_errNoTweets_returns_accumulated E Sample.quiet "go"
              "2009-11-10" "2009-11-11" Proc_init [tw1] v1 p1
              (Some (Sample.base +:+ "&max_position=TWEET-11-12"))
              "nothing" Sample.nothing p2 5) as [_ Hrun].
  - eapply (turns_cons _ _ _ _ tw1 [] Vars_init Proc_init (Some Sample.base) v1 p1).
    + vm_compute; reflexivity.
    + vm_compute; reflexivity.
    + vm_compute; reflexivity.
    + apply turns_nil.
  - vm_compute; reflexivity.
  - vm_compute; reflexivity.
  - vm_compute; reflexivity.
  - reflexivity.
  - simpl; lia.
  - eexists _, _. split; [exact Hrun|]. reflexivity.
Defined.

(** ** The first pass on a fragment without a usable permalink *)

Lemma growing_ret {A} (a : A) : growing (ret a).
Proof. intros p r p' [= <- <-]. reflexivity. Qed.

Lemma growing_lift {A} (r : res A) : growing (lift r).
Proof. intros p r' p' [= <- <-]. reflexivity. Qed.

Lemma growing_bind {A B} (m : M A) (k : A → M B) :
  growing m → (∀ a, growing (k a)) → growing (bind m k).
Proof.
  intros Hm Hk p r p'. unfold bind.
  destruct (m p) as [[a|msg] p1] eqn:E; pose proof (Hm _ _ _ E) as E1.
  - intros Ek. etransitivity; [exact E1 | exact (Hk _ _ _ _ Ek)].
  - intros [= <- <-]. exact E1.
Qed.

Lemma growing_infof s line : growing (infof s line).
Proof.
  unfold infof. destruct (Info s); [|apply growing_ret].
  intros p r p' [= <- <-]. simpl. now apply prefix_app_r.
Qed.

Section Pass1Log.
Context `{Env}.

Lemma no_permalink_tweet_of n : no_permalink n → tweet_of n = Tweet_zero.
Proof.
  unfold tweet_of. intros [-> | (path & -> & Hlen)]; [reflexivity|].
  destruct (Split path "/") as [|a [|b [|c [|d l]]]]; try reflexivity.
  simpl in Hlen. lia.
Qed.

Lemma no_permalink_warning i n :
  no_permalink n → ∃ line, permalink_warning i n = Some line.
Proof.
  unfold permalink_warning. intros [-> | (path & -> & Hlen)]; [eauto|].
  apply Nat.ltb_lt in Hlen. rewrite Hlen. eauto.
Qed.

Lemma growing_scrapePermalink s i n tweets :
  growing (scrapePermalink (infof s) i n tweets).
Proof.
  unfold scrapePermalink. destruct (Attr n _) as [path|].
  - destruct (_ <? _); repeat (apply growing_bind; [|intros ?]);
      auto using growing_ret, growing_lift, growing_infof.
  - apply growing_bind; auto using growing_ret, growing_infof.
Qed.

Lemma growing_pass1_from s nodes : ∀ i tweets,
  growing (Each_from i nodes (scrapePermalink (infof s)) tweets).
Proof.
  induction nodes as [|n nodes IH]; intros i tweets; simpl.
  - apply growing_ret.
  - apply growing_bind; auto using growing_scrapePermalink.
Qed.

Lemma scrapePermalink_logs s i n tweets p line tweets' p' :
  Info s = true →
  permalink_warning i n = Some line →
  scrapePermalink (infof s) i n tweets p = (Val tweets', p') →
  sink p' = sink p ++ [line].
Proof.
  unfold permalink_warning, scrapePermalink, infof. intros ->.
  destruct (Attr n _) as [path|].
  - destruct (_ <? _); [|discriminate]. intros [= <-] [= _ <-]. reflexivity.
  - intros [= <-] [= _ <-]. reflexivity.
Qed.

Lemma pass1_from_logs s nodes : ∀ i tweets p k n line tweets' p',
  Info s = true →
  nodes !! k = Some n →
  permalink_warning (i + k) n = Some line →
  Each_from i nodes (scrapePermalink (infof s)) tweets p = (Val tweets', p') →
  line ∈ sink p'.
Proof.
  induction nodes as [|n0 nodes IH]; intros i tweets p k n line tweets' p' Hs Hk Hw;
    [discriminate|].
  simpl. intros Hb. apply bind_inv in Hb as (t1 & p1 & E1 & E2).
  destruct k as [|k]; simpl in Hk.
  - injection Hk as ->. rewrite Nat.add_0_r in Hw.
    apply growing_pass1_from in E2 as [extra ->].
    rewrite (scrapePermalink_logs _ _ _ _ _ _ _ _ Hs Hw E1).
    rewrite !elem_of_app, list_elem_of_singleton. auto.
  - apply (IH (S i) t1 p1 k n line tweets' p' Hs Hk); [|exact E2].
    now replace (S i + k) with (i + S k) by lia.
Qed.

End Pass1Log.

(** C8. For every identity fragment whose permalink attribute is missing
    or whose path has fewer than four slash-separated parts, the first
    pass appends the empty tweet [Tweet{}] at the position of the fragment,
    so that there are as many tweets as fragments, and logs a warning (to
    [Info], when it is set). *)
Theorem pass1_placeholder `{Env} (s : Scrape) (sel : list Node) (i : nat)
    (n : Node) (p : Proc) :
  sel !! i = Some n →
  no_permalink n →
  ∃ tweets p' line,
    pass1 (infof s) sel p = (Val tweets, p') ∧
    length tweets = length sel ∧
    tweets !! i = Some Tweet_zero ∧
    permalink_warning i n = Some line ∧
    (Info s = true → line ∈ sink p').
Proof.
  intros Hi Hn.
  destruct (pass1_total (infof s) (total_infof s) sel p) as (tweets & p' & Hp).
  destruct (no_permalink_warning i n Hn) as (line & Hline).
  exists tweets, p', line. pose proof Hp as Hv.
  unfold pass1, Each in Hv. apply pass1_from_Val in Hv. simpl in Hv. subst tweets.
  split; [exact Hp|]. split; [now rewrite length_fmap|].
  split; [now rewrite list_lookup_fmap, Hi, <- (no_permalink_tweet_of n Hn)|].
  split; [exact Hline|].
  intros Hs. unfold pass1, Each in Hp.
  exact (pass1_from_logs s sel 0 [] p i n line _ p' Hs Hi Hline Hp).
Qed.

Lemma pass1_placeholder_witness :
  ∃ tweets p',
    @pass1 Sample.exhausted (infof Sample.chatty)
      [Fixture.tweet_at "/a/status/1"; Fixture.tweet_at "/a/b"; Fixture.tweet_bare]
      Proc_init = (Val tweets, p') ∧
    tweets !! 1 = Some (@Tweet_zero Sample.exhausted) ∧
    sink p' = ["tweet 1: permalink /a/b was not in correct format" +:+ LF;
               "tweet 2: could not get permalink" +:+ LF].
Proof.
  destruct (@pass1_placeholder Sample.exhausted Sample.chatty
              [Fixture.tweet_at "/a/status/1"; Fixture.tweet_at "/a/b";
               Fixture.tweet_bare]
              1 (Fixture.tweet_at "/a/b") Proc_init)
    as (tweets & p' & line & Hp & _ & Hi & _ & _).
  - reflexivity.
  - right. exists "/a/b". split; [reflexivity | vm_compute; lia].
  - exists tweets, p'. split; [exact Hp|]. split; [exact Hi|].
    vm_compute in Hp. now injection Hp as _ <-.
Defined.

(** ** Runs on the sample sites *)

(** C1. On a page with one identity fragment and two contents fragments
    [Scrape.tweets] does not return one tweet: the third pass indexes the
    tweets at 1 and the call panics. *)
Theorem tweets_panics_on_extra_contents :
  length (Find (Env := Sample.world [(Sample.base, inl "wordy")])
               Sample.wordy selTweet) = 1 ∧
  length (Find (Env := Sample.world [(Sample.base, inl "wordy")])
               Sample.wordy selContents) = 2 ∧
  fst (@tweets (Sample.world [(Sample.base, inl "wordy")]) Sample.quiet
         (Some Sample.base) Proc_init)
  = Panic "index out of range".
Proof. repeat split; vm_compute; reflexivity. Qed.

(** C3. With one tweet, the second and the third callback at index 1 (a
    fragment in excess) do not log and discard: their guard [i >
    len(tweets)] lets the index through, and the write [tweets[1]] is out
    of range.  Only from index 2 on is the fragment logged and dropped. *)
Theorem excess_fragment_at_len_is_written :
  let E := Sample.world [(Sample.base, inl "crowded")] in
  let tw := [@mkTweet E "https://www.twitter.com/a/status/1" "a" "" "" "1"] in
  @scrapeTimestamp E (infof Sample.chatty) 1
     (Fixture.stamp "3:27 PM - 10 Nov 2009") tw Proc_init
  = (Panic "index out of range", Proc_init) ∧
  @scrapeContents E (infof Sample.chatty) 1 (Fixture.contents "two") tw Proc_init
  = (Panic "index out of range", Proc_init) ∧
  @scrapeTimestamp E (infof Sample.chatty) 2
     (Fixture.stamp "3:28 PM - 10 Nov 2009") tw Proc_init
  = (Val tw, mkProc [] ["timestamp: found 2 timestamps, only 1 tweets exist" +:+ LF]
                    "" false) ∧
  fst (@tweets E Sample.chatty (Some Sample.base) Proc_init)
  = Panic "index out of range".
Proof. repeat split; vm_compute; reflexivity. Qed.

(** C4. When the last tweet of a page has no permalink, its ID is empty
    and the next request carries no [max_position] at all: it is the first
    request again, and forty iterations do not end the loop. *)
Theorem second_request_without_cursor :
  let E := Sample.world [(Sample.base, inl "last_bare")] in
  (ID <$> (@tweet_of E <$> @Find E Sample.last_bare selTweet)) = ["1"; ""] ∧
  sent (snd (@Tweets E 2 Sample.quiet "go" "2009-11-10" "2009-11-11" Proc_init))
  = [Sample.base; Sample.base] ∧
  fst (@Tweets E 40 Sample.quiet "go" "2009-11-10" "2009-11-11" Proc_init)
  = Val None.
Proof. repeat split; vm_compute; reflexivity. Qed.

(** C5. When the first tweet of the first page has no permalink, [minID]
    is still empty after that page and is set from the first tweet of the
    second page. *)
Theorem minID_set_on_second_page :
  let E := Sample.world
             [(Sample.base, inl "first_bare");
              (Sample.base +:+ "&max_position=TWEET-1-", inl "two_three")] in
  ∃ v1 p1 v2 p2,
    @Tweets_iter E Sample.quiet "go" "2009-11-10" "2009-11-11" Vars_init Proc_init
    = (Val (Next v1), p1) ∧
    @Tweets_iter E Sample.quiet "go" "2009-11-10" "2009-11-11" v1 p1
    = (Val (Next v2), p2) ∧
    (ID <$> t v1) = [""; "1"] ∧ minID v1 = "" ∧
    (ID <$> t v2) = [""; "1"; "2"; "3"] ∧ minID v2 = "2".
Proof.
  eexists _, _, _, _.
  split; [vm_compute; reflexivity|].
  split; [vm_compute; reflexivity|].
  repeat split; vm_compute; reflexivity.
Qed.

(** C9. The package-level [Tweets], called twice with the same arguments
    on a site that answers by URL alone: the second call starts with the
    [minID] the first one left and returns other tweets. *)
Theorem Pkg_Tweets_twice_differ :
  let E := Sample.world
             [(Sample.base, inl "first_bare");
              (Sample.base +:+ "&max_position=TWEET-1-", inl "only_two")] in
  let run1 := @Pkg.Tweets E 5 "go" "2009-11-10" "2009-11-11" Proc_init in
  let run2 := @Pkg.Tweets E 5 "go" "2009-11-10" "2009-11-11" (snd run1) in
  ∃ r1 r2,
    fst run1 = Val (Some (r1, None)) ∧ fst run2 = Val (Some (r2, None)) ∧
    (ID <$> r1) = [""; "1"; "2"] ∧ (ID <$> r2) = [""; "1"] ∧
    pkg_minID (snd run1) = "2" ∧
    last (sent (snd run1)) = Some (Sample.base +:+ "&max_position=TWEET-1-") ∧
    last (sent (snd run2)) = Some (Sample.base +:+ "&max_position=TWEET-1-2").
Proof.
  eexists _, _.
  split; [vm_compute; reflexivity|].
  split; [vm_compute; reflexivity|].
  repeat split; vm_compute; reflexivity.
Qed.

(** ** What the loop does keep: cursor, [minID], repeatability *)

Section Cursor.
Context `{Env}.
Variables (s : Scrape) (search : string) (start until : Time).

(** The first request is the search alone. *)
Lemma f_first minID :
  f search start until minID ""
  = match url_Parse (baseURL search start until) with
    | inr err => (None, Some (Errorf ("parse " +:+ baseURL search start until
                                      +:+ ": " +:+ err)))
    | inl u => (Some u, None)
    end.
Proof. reflexivity. Qed.

(** With a [maxID] that is not empty the request carries the cursor made
    of [maxID] and [minID]. *)
Lemma f_cursor minID maxID :
  maxID ≠ "" →
  f search start until minID maxID
  = let raw := baseURL search start until +:+ max_position maxID minID in
    match url_Parse raw with
    | inr err => (None, Some (Errorf ("parse " +:+ raw +:+ ": " +:+ err)))
    | inl u => (Some u, None)
    end.
Proof. intros Hne. unfold f. now rewrite decide_True. Qed.

(** X6. After a page whose last tweet has an ID, the next request carries
    the cursor made of that ID and of [minID]:
    [&max_position=TWEET-<ID of the last tweet>-<minID>]. *)
Lemma next_request_cursor v p u tw p1 v1 lst :
  f search start until (minID v) (maxID v) = (u, None) →
  tweets s u p = (Val (tw, None), p1) →
  Tweets_iter s search start until v p = (Val (Next v1), p1) →
  last tw = Some lst → ID lst ≠ "" →
  f search start until (minID v1) (maxID v1)
  = let raw := baseURL search start until +:+ max_position (ID lst) (minID v1) in
    match url_Parse raw with
    | inr err => (None, Some (Errorf ("parse " +:+ raw +:+ ": " +:+ err)))
    | inl u => (Some u, None)
    end.
Proof.
  intros Hf Ht Hi Hlast Hne.
  destruct (Tweets_iter_Next_inv _ _ _ _ _ _ _ _ _ _ Hf Ht Hi)
    as (first & lst' & _ & Hlast' & -> & _).
  assert (lst' = lst) as -> by congruence.
  now apply f_cursor.
Qed.

(** X7. When the first tweet of the first page has an ID, [minID] is that
    ID in every later iteration. *)
Lemma minID_fixed_by_first_page p0 tw pages v p first :
  turns s search start until (tw :: pages) Vars_init p0 v p →
  head tw = Some first → ID first ≠ "" →
  minID v = ID first.
Proof.
  intros Hturns Hfirst Hne. inversion Hturns as [|? ? ? ? u v1 p1 ? ? Hf Ht Hi Hrest]; subst.
  destruct (Tweets_iter_Next_inv _ _ _ _ _ _ _ _ _ _ Hf Ht Hi)
    as (first' & lst & Hfirst' & _ & Hv1 & _).
  assert (first' = first) as -> by congruence.
  assert (Hm : minID v1 = ID first) by (subst v1; reflexivity).
  rewrite <- Hm. apply (turns_minID _ _ _ _ _ _ _ _ _ Hrest). congruence.
Qed.

End Cursor.

Lemma indep_ret {A} (a : A) : indep (ret a).
Proof. intros p1 p2. reflexivity. Qed.

Lemma indep_lift {A} (r : res A) : indep (lift r).
Proof. intros p1 p2. reflexivity. Qed.

Lemma indep_bind {A B} (m : M A) (k : A → M B) :
  indep m → (∀ a, indep (k a)) → indep (bind m k).
Proof.
  intros Hm Hk p1 p2. unfold bind. specialize (Hm p1 p2).
  destruct (m p1) as [[a|msg] q1], (m p2) as [[a'|msg'] q2]; simpl in Hm;
    try discriminate; injection Hm as <-; [apply Hk | reflexivity].
Qed.

Lemma indep_infof s line : indep (infof s line).
Proof. intros p1 p2. unfold infof. destruct (Info s); reflexivity. Qed.

Section Repeatable.
Context `{Env}.

(** The site answers by URL alone. *)
Hypothesis stable : ∀ h1 h2 url, http_Get_body h1 url = http_Get_body h2 url.

Lemma indep_http_Get raw : indep (http_Get raw).
Proof. intros p1 p2. unfold http_Get. simpl. now rewrite (stable (sent p1) (sent p2)). Qed.

Lemma indep_Each_from {S : Type} (cb : nat → Node → S → M S) :
  (∀ i n st, indep (cb i n st)) →
  ∀ nodes i st, indep (Each_from i nodes cb st).
Proof.
  intros Hcb nodes. induction nodes as [|n nodes IH]; intros i st; simpl.
  - apply indep_ret.
  - apply indep_bind; auto.
Qed.

Lemma indep_passes s doc sel : indep (passes (infof s) doc sel).
Proof.
  unfold passes, pass1, pass2, pass3, Each.
  repeat (apply indep_bind; [|intros ?]); try apply indep_ret; try apply indep_infof;
    apply indep_Each_from; intros i n st.
  - unfold scrapePermalink. destruct (Attr n _) as [path|].
    + destruct (_ <? _);
        repeat (apply indep_bind; [|intros ?]);
        auto using indep_ret, indep_lift, indep_infof.
    + apply indep_bind; auto using indep_ret, indep_infof.
  - unfold scrapeTimestamp. destruct (Attr n _) as [title|].
    + destruct (_ <? _);
        repeat (apply indep_bind; [|intros ?]);
        auto using indep_ret, indep_lift, indep_infof.
      destruct (time_Parse _ _); [apply indep_ret|].
      apply indep_bind; auto using indep_ret, indep_infof.
    + apply indep_bind; auto using indep_ret, indep_infof.
  - unfold scrapeContents. destruct (decide _); [|destruct (_ <? _)];
      repeat (apply indep_bind; [|intros ?]);
      auto using indep_ret, indep_lift, indep_infof.
Qed.

Lemma indep_tweets s u : indep (tweets s u).
Proof.
  unfold tweets. apply indep_bind.
  - unfold getHTML. destruct u as [u|]; [|apply indep_lift].
    apply indep_bind; [apply indep_infof|intros _].
    apply indep_bind; [apply indep_http_Get|intros [body|err]]; [|apply indep_ret].
    destruct (json_Decode_items_html body); apply indep_ret.
  - intros [html [err|]]; [apply indep_ret|].
    destruct (goquery_NewDocumentFromReader html) as [doc|]; [|apply indep_ret].
    destruct (Find doc selTweet) as [|n sel]; [apply indep_ret|].
    apply indep_bind; [apply indep_passes | intros; apply indep_ret].
Qed.

Lemma indep_Tweets_iter s search start until v :
  indep (Tweets_iter s search start until v).
Proof.
  unfold Tweets_iter.
  destruct (f search start until (minID v) (maxID v)) as [u [err|]];
    [apply indep_ret|].
  apply indep_bind; [apply indep_tweets|]. intros [tw [err|]].
  - destruct (decide _); apply indep_ret.
  - apply indep_bind.
    + destruct (decide _); [|apply indep_ret].
      apply indep_bind; [apply indep_lift | intros; apply indep_ret].
    + intros minID'. apply indep_bind; [apply indep_lift|].
      intros lst. destruct (decide _); apply indep_ret.
Qed.

(** X12. On a site that answers by URL alone, what a call of
    [Scrape.Tweets] returns is the same whatever ran before it in the
    process (requests made, lines logged, package-level variables): calls
    with the same arguments return the same tweets in the same order. *)
Lemma Scrape_Tweets_repeatable fuel s search start until p1 p2 :
  (Tweets fuel s search start until p1).1 = (Tweets fuel s search start until p2).1.
Proof.
  unfold Tweets. generalize Vars_init. revert p1 p2.
  induction fuel as [|fuel IH]; intros p1 p2 v; [reflexivity|].
  simpl. apply indep_bind; [apply indep_Tweets_iter|].
  intros [v'|r]; [|apply indep_ret]. intros q1 q2. apply IH.
Qed.

End Repeatable.

(** The URL the repository's test expects for the first request. *)
Example baseURL_golang :
  @baseURL Sample.exhausted "#golang" "2009-11-10" "2009-11-11"
  = "https://twitter.com/i/search/timeline?f=tweets&vertical=default&q=%23golang%20since:2009-11-10%20until:2009-11-11&src=typd".
Proof. vm_compute; reflexivity. Qed.

(** ** The tweets of a page, field by field *)

Section RecordProps.
Context `{Env}.
Variable logf : string → M unit.

Lemma scrapeTimestamp_lookup i n tweets p tweets' p' :
  scrapeTimestamp logf i n tweets p = (Val tweets', p') →
  ∀ j, tweets' !! j
       = (if decide (j = i) then stamp_with (Some n) else id) <$> tweets !! j.
Proof.
  unfold scrapeTimestamp, stamp_with. destruct (Attr n "title") as [title|].
  - destruct (length tweets <? i) eqn:Hguard.
    + intros Hb j. apply bind_inv in Hb as (? & ? & _ & [= <- <-]).
      apply Nat.ltb_lt in Hguard. destruct (decide (j = i)) as [->|].
      * now rewrite lookup_ge_None_2 by lia.
      * now rewrite option_fmap_id.
    + intros Hb j. apply bind_inv in Hb as (tme & p1 & Htme & Hb).
      apply bind_inv in Hb as (tw & p2 & Hi & [= <- <-]).
      injection Hi as Hi _. apply index_Val in Hi.
      assert (tme = match time_Parse timeLayout title with
                    | inl tme => tme
                    | inr _ => Time_zero
                    end) as ->.
      { destruct (time_Parse timeLayout title); [now injection Htme|].
        apply bind_inv in Htme as (? & ? & _ & [= <- _]). reflexivity. }
      destruct (decide (j = i)) as [->|Hne].
      * rewrite list_lookup_insert_eq by (eapply lookup_lt_Some; eauto).
        now rewrite Hi.
      * rewrite list_lookup_insert_ne by auto. now rewrite option_fmap_id.
  - intros Hb j. apply bind_inv in Hb as (? & ? & _ & [= <- <-]).
    destruct (decide (j = i)); [now destruct (tweets !! j) | now rewrite option_fmap_id].
Qed.

Lemma scrapeContents_lookup i n tweets p tweets' p' :
  scrapeContents logf i n tweets p = (Val tweets', p') →
  ∀ j, tweets' !! j
       = (if decide (j = i) then contents_with (Some n) else id) <$> tweets !! j.
Proof.
  unfold scrapeContents, contents_with. cbv zeta.
  destruct (decide (Trim (Text n) (" " +:+ LF) = "")) as [Hempty|Hfull].
  - intros Hb j. apply bind_inv in Hb as (? & ? & _ & [= <- <-]).
    destruct (decide (j = i)); [now destruct (tweets !! j) | now rewrite option_fmap_id].
  - destruct (length tweets <? i) eqn:Hguard.
    + intros Hb j. apply bind_inv in Hb as (? & ? & _ & [= <- <-]).
      apply Nat.ltb_lt in Hguard. destruct (decide (j = i)) as [->|].
      * now rewrite lookup_ge_None_2 by lia.
      * now rewrite option_fmap_id.
    + intros Hb j. apply bind_inv in Hb as (tw & p2 & Hi & [= <- <-]).
      injection Hi as Hi _. apply index_Val in Hi.
      destruct (decide (j = i)) as [->|Hne].
      * rewrite list_lookup_insert_eq by (eapply lookup_lt_Some; eauto).
        now rewrite Hi.
      * rewrite list_lookup_insert_ne by auto. now rewrite option_fmap_id.
Qed.

(** A pass whose callback rewrites the tweet at its own index with [g]
    rewrites, from index [i] on, each tweet with the fragment at its
    position. *)
Lemma Each_from_lookup {A : Type} (g : option Node → A → A)
    (cb : nat → Node → list A → M (list A)) :
  (∀ tw, g None tw = tw) →
  (∀ i n st p st' p', cb i n st p = (Val st', p') →
     ∀ j, st' !! j = (if decide (j = i) then g (Some n) else id) <$> st !! j) →
  ∀ nodes i st p st' p',
    Each_from i nodes cb st p = (Val st', p') →
    ∀ j, st' !! j
         = (if decide (i ≤ j) then g (nodes !! (j - i)) else id) <$> st !! j.
Proof.
  intros Hnone Hcb nodes.
  induction nodes as [|n nodes IH]; intros i st p st' p'; simpl.
  - intros [= <- <-] j. destruct (decide (i ≤ j)); [|now rewrite option_fmap_id].
    rewrite lookup_nil. destruct (st !! j); simpl; [now rewrite Hnone | reflexivity].
  - intros Hb j. apply bind_inv in Hb as (st1 & p1 & E1 & E2).
    rewrite (IH _ _ _ _ _ E2 j), (Hcb _ _ _ _ _ _ E1 j).
    destruct (decide (S i ≤ j)) as [Hlt|Hge].
    + rewrite decide_False by lia. rewrite decide_True by lia.
      rewrite option_fmap_id. replace (j - i) with (S (j - S i)) by lia.
      reflexivity.
    + rewrite option_fmap_id. destruct (decide (j = i)) as [->|Hne].
      * rewrite decide_True by lia. now rewrite Nat.sub_diag.
      * rewrite decide_False by lia. reflexivity.
Qed.

Lemma passes_lookup doc sel p tweets p' :
  passes logf doc sel p = (Val tweets, p') →
  ∀ j, tweets !! j
       = (λ n, contents_with (Find doc selContents !! j)
                 (stamp_with (Find doc selTimestamp !! j) (tweet_of n)))
         <$> sel !! j.
Proof.
  unfold passes, pass1, pass2, pass3, Each. intros Hb j.
  apply bind_inv in Hb as (t1 & p1 & E1 & Hb).
  apply bind_inv in Hb as (t2 & p2 & E2 & Hb).
  apply bind_inv in Hb as (t3 & p3 & E3 & Hb).
  apply bind_inv in Hb as (? & ? & _ & [= <- <-]).
  apply pass1_from_Val in E1 as ->. simpl in *.
  rewrite (Each_from_lookup contents_with (scrapeContents logf)
             ltac:(reflexivity) scrapeContents_lookup _ _ _ _ _ _ E3 j).
  rewrite (Each_from_lookup stamp_with (scrapeTimestamp logf)
             ltac:(reflexivity) scrapeTimestamp_lookup _ _ _ _ _ _ E2 j).
  rewrite !decide_True by lia. rewrite Nat.sub_0_r, list_lookup_fmap.
  now destruct (sel !! j).
Qed.

End RecordProps.

(** X1. When [Scrape.tweets] returns without error, the tweet at each
    position is made of the fragments at that position: Permalink, Name
    and ID from the identity fragment, Timestamp from the timestamp
    fragment (parsed, zero when it does not parse, untouched without a
    title or a fragment), Contents from the contents fragment (trimmed,
    untouched when empty or without a fragment). *)
Theorem tweets_records `{Env} (s : Scrape) (u : option URL) (p : Proc)
    (html : string) (p1 : Proc) (doc : Document) (tw : list Tweet) (p' : Proc) :
  getHTML s u p = (Val (html, None), p1) →
  goquery_NewDocumentFromReader html = inl doc →
  tweets s u p = (Val (tw, None), p') →
  ∀ i, tw !! i = record_at doc i.
Proof.
  intros Hg Hd Ht i.
  destruct (tweets_ok_inv _ _ _ _ _ Ht) as (u' & html' & doc' & p1' & _ & Hg' & Hd' & _ & Hp).
  assert (html' = html) as -> by congruence.
  assert (doc' = doc) as -> by congruence.
  unfold record_at. exact (passes_lookup _ _ _ _ _ _ Hp i).
Qed.

Lemma tweets_records_witness :
  ∃ tw p',
    @tweets Sample.round_trip Sample.quiet (Some Sample.base) Proc_init
    = (Val (tw, None), p') ∧
    tw !! 1 = Some (@mkTweet Sample.round_trip "https://www.twitter.com/b/status/11"
                      "b" "3:20 PM - 10 Nov 2009" "second" "11").
Proof.
  pose (E := Sample.round_trip).
  pose (tw := [@mkTweet E "https://www.twitter.com/a/status/12" "a"
                        "3:26 PM - 10 Nov 2009" "first" "12";
               @mkTweet E "https://www.twitter.com/b/status/11" "b"
                        "3:20 PM - 10 Nov 2009" "second" "11"]).
  pose (p1 := mkProc [Sample.base] [] "" false).
  exists tw, p1. split; [vm_compute; reflexivity|].
  rewrite (@tweets_records E Sample.quiet (Some Sample.base) Proc_init
             "page1" p1 Sample.page1 tw p1); vm_compute; reflexivity.
Defined.

(** X2. [Scrape.tweets] returns, with one tweet for each identity
    fragment, whenever the page has at least one identity fragment and no
    more timestamp fragments and no more contents fragments than identity
    fragments. *)
Theorem tweets_returns_in_range `{Env} (s : Scrape) (u : option URL) (p : Proc)
    (html : string) (p1 : Proc) (doc : Document) :
  getHTML s u p = (Val (html, None), p1) →
  goquery_NewDocumentFromReader html = inl doc →
  Find doc selTweet ≠ [] →
  length (Find doc selTimestamp) ≤ length (Find doc selTweet) →
  length (Find doc selContents) ≤ length (Find doc selTweet) →
  ∃ tw p', tweets s u p = (Val (tw, None), p') ∧
           length tw = length (Find doc selTweet).
Proof.
  intros Hg Hd Hne H2 H3.
  destruct (passes_total (infof s) (total_infof s) doc (Find doc selTweet) H2 H3 p1)
    as (tw & p' & Hp).
  exists tw, p'. split; [|exact (passes_length _ _ _ _ _ _ Hp)].
  unfold tweets. rewrite (bind_Val _ _ _ _ _ Hg), Hd.
  destruct (Find doc selTweet) as [|n sel] eqn:Hsel; [congruence|].
  now rewrite (bind_Val _ _ _ _ _ Hp).
Qed.

Lemma tweets_returns_in_range_witness :
  ∃ tw p',
    @tweets Sample.round_trip Sample.chatty (Some Sample.base) Proc_init
    = (Val (tw, None), p') ∧ length tw = 2.
Proof.
  destruct (@tweets_returns_in_range Sample.round_trip Sample.chatty
              (Some Sample.base) Proc_init "page1"
              (mkProc [Sample.base] ["fetching " +:+ Sample.base +:+ LF] "" false)
              Sample.page1) as (tw & p' & Ht & Hlen).
  - vm_compute; reflexivity.
  - reflexivity.
  - discriminate.
  - vm_compute; lia.
  - vm_compute; lia.
  - exists tw, p'. split; [exact Ht | exact Hlen].
Defined.

Lemma Each_from_app `{Env} {St : Type} (cb : nat → Node → St → M St) l1 l2 :
  ∀ i st p,
    Each_from i (l1 ++ l2) cb st p
    = bind (Each_from i l1 cb st) (λ st', Each_from (i + length l1) l2 cb st') p.
Proof.
  induction l1 as [|n l1 IH]; intros i st p; simpl.
  - unfold bind, ret. now rewrite Nat.add_0_r.
  - unfold bind. destruct (cb i n st p) as [[st1|msg] p1]; [|reflexivity].
    rewrite IH. unfold bind.
    now replace (i + S (length l1)) with (S i + length l1) by lia.
Qed.

(** X3. A page with a timestamp fragment that carries a title at the
    position just after the last tweet makes [Scrape.tweets] panic: the
    guard of the callback is [i > len(tweets)], and [tweets[len(tweets)]] is
    out of range. *)
Theorem tweets_panics_on_timestamp_at_len `{Env} (s : Scrape) (u : option URL)
    (p : Proc) (html : string) (p1 : Proc) (doc : Document) (m : Node)
    (title : string) :
  getHTML s u p = (Val (html, None), p1) →
  goquery_NewDocumentFromReader html = inl doc →
  Find doc selTweet ≠ [] →
  Find doc selTimestamp !! length (Find doc selTweet) = Some m →
  Attr m "title" = Some title →
  ∃ p', tweets s u p = (Panic "index out of range", p').
Proof.
  intros Hg Hd Hne Hm Htitle.
  unfold tweets. rewrite (bind_Val _ _ _ _ _ Hg), Hd.
  destruct (Find doc selTweet) as [|n0 sel0] eqn:Hsel; [congruence|].
  rewrite <- Hsel in *. clear Hne. set (sel := Find doc selTweet) in *.
  destruct (pass1_total (infof s) (total_infof s) sel p1) as (t1 & q1 & E1).
  pose proof E1 as L1. unfold pass1, Each in L1. apply pass1_from_Val in L1.
  simpl in L1.
  assert (Hl1 : length t1 = length sel) by (subst t1; now rewrite length_fmap).
  pose proof (take_drop_middle _ _ _ Hm) as Hsplit.
  assert (Hstep : ∀ i n st q st' q', length st = length sel →
            scrapeTimestamp (infof s) i n st q = (Val st', q') →
            length st' = length sel).
  { intros ?????? Hst Hcb. apply scrapeTimestamp_identity in Hcb.
    apply (f_equal length) in Hcb. rewrite !length_fmap in Hcb. congruence. }
  assert (Htake : length (take (length sel) (Find doc selTimestamp)) = length sel).
  { rewrite length_take. apply lookup_lt_Some in Hm. lia. }
  assert (T2 : total (Each_from 0 (take (length sel) (Find doc selTimestamp))
                        (scrapeTimestamp (infof s)) t1)).
  { apply (Each_from_total (λ st, length st = length sel) (length sel));
      [ | exact Hstep | exact Hl1 | lia ].
    intros i n st Hst Hi. simpl in Hst.
    apply scrapeTimestamp_total; [apply total_infof | lia]. }
  destruct (T2 q1) as (t2 & q2 & E2).
  apply (Each_from_inv (λ st, length st = length sel) _ Hstep) in E2 as Hl2;
    [|exact Hl1].
  destruct (scrapeTimestamp_at_len (infof s) (total_infof s) m t2 title q2 Htitle)
    as (q3 & E3).
  exists q3. unfold bind at 1. apply bind_Panic.
  unfold passes. rewrite (bind_Val _ _ _ _ _ E1). apply bind_Panic.
  unfold pass2, Each. rewrite <- Hsplit, Each_from_app.
  rewrite (bind_Val _ _ _ _ _ E2), Htake. simpl.
  apply bind_Panic. now rewrite <- Hl2.
Qed.

Lemma tweets_panics_on_timestamp_at_len_witness :
  ∃ p',
    @tweets (Sample.world [(Sample.base, inl "crowded")]) Sample.quiet
      (Some Sample.base) Proc_init = (Panic "index out of range", p').
Proof.
  apply (@tweets_panics_on_timestamp_at_len
           (Sample.world [(Sample.base, inl "crowded")]) Sample.quiet
           (Some Sample.base) Proc_init "crowded"
           (mkProc [Sample.base] [] "" false) Sample.crowded
           (Fixture.stamp "3:27 PM - 10 Nov 2009") "3:27 PM - 10 Nov 2009").
  - vm_compute; reflexivity.
  - reflexivity.
  - discriminate.
  - reflexivity.
  - reflexivity.
Defined.

(** ** Runs that show the cursor and the repeatability at work *)

Lemma next_request_cursor_witness :
  @f Sample.round_trip "go" "2009-11-10" "2009-11-11" "12" "11"
  = (Some (Sample.base +:+ "&max_position=TWEET-11-12"), None).
Proof.
  pose (E := Sample.round_trip).
  pose (lst := @mkTweet E "https://www.twitter.com/b/status/11" "b"
                        "3:20 PM - 10 Nov 2009" "second" "11").
  pose (tw1 := [@mkTweet E "https://www.twitter.com/a/status/12" "a"
                         "3:26 PM - 10 Nov 2009" "first" "12"; lst]).
  pose (v1 := @mkVars E "12" "11" tw1).
  pose (p1 := mkProc [Sample.base] [] "" false).
  etransitivity.
  - apply (@next_request_cursor E Sample.quiet "go" "2009-11-10" "2009-11-11"
             Vars_init Proc_init (Some Sample.base) tw1 p1 v1 lst).
    + vm_compute; reflexivity.
    + vm_compute; reflexivity.
    + vm_compute; reflexivity.
    + reflexivity.
    + discriminate.
  - vm_compute; reflexivity.
Defined.

Lemma minID_fixed_by_first_page_witness :
  ∃ v p,
    turns (H := Sample.round_trip) Sample.quiet "go" "2009-11-10" "2009-11-11"
      [[@mkTweet Sample.round_trip "https://www.twitter.com/a/status/12" "a"
                 "3:26 PM - 10 Nov 2009" "first" "12";
        @mkTweet Sample.round_trip "https://www.twitter.com/b/status/11" "b"
                 "3:20 PM - 10 Nov 2009" "second" "11"]]
      Vars_init Proc_init v p ∧
    minID v = "12".
Proof.
  pose (E := Sample.round_trip).
  pose (first := @mkTweet E "https://www.twitter.com/a/status/12" "a"
                          "3:26 PM - 10 Nov 2009" "first" "12").
  pose (tw1 := [first;
                @mkTweet E "https://www.twitter.com/b/status/11" "b"
                         "3:20 PM - 10 Nov 2009" "second" "11"]).
  pose (v1 := @mkVars E "12" "11" tw1).
  pose (p1 := mkProc [Sample.base] [] "" false).
  assert (Hturns : turns (H := E) Sample.quiet "go" "2009-11-10" "2009-11-11"
                     [tw1] Vars_init Proc_init v1 p1).
  { eapply (turns_cons _ _ _ _ tw1 [] Vars_init Proc_init (Some Sample.base) v1 p1).
    - vm_compute; reflexivity.
    - vm_compute; reflexivity.
    - vm_compute; reflexivity.
    - apply turns_nil. }
  exists v1, p1. split; [exact Hturns|].
  apply (@minID_fixed_by_first_page E Sample.quiet "go" "2009-11-10" "2009-11-11"
           Proc_init tw1 [] v1 p1 first Hturns); [reflexivity | discriminate].
Defined.

Lemma Scrape_Tweets_repeatable_witness :
  (@Tweets Sample.round_trip 5 Sample.chatty "go" "2009-11-10" "2009-11-11"
     Proc_init).1
  = (@Tweets Sample.round_trip 5 Sample.chatty "go" "2009-11-10" "2009-11-11"
       (mkProc ["https://example.org/"] ["earlier line"] "5602929333" true)).1.
Proof.
  apply (@Scrape_Tweets_repeatable Sample.round_trip).
  intros h1 h2 url. reflexivity.
Defined.

(** ** What a whole call leaves alone *)

Section Preserves.
Variable R : Proc → Proc → Prop.
Hypothesis R_refl : ∀ p, R p p.
Hypothesis R_trans : ∀ p q r, R p q → R q r → R p r.

Lemma preserves_ret {A} (a : A) : preserves R (ret a).
Proof. intros p r p' [= <- <-]. apply R_refl. Qed.

Lemma preserves_lift {A} (r : res A) : preserves R (lift r).
Proof. intros p r' p' [= <- <-]. apply R_refl. Qed.

Lemma preserves_bind {A B} (m : M A) (k : A → M B) :
  preserves R m → (∀ a, preserves R (k a)) → preserves R (bind m k).
Proof.
  intros Hm Hk p r p'. unfold bind.
  destruct (m p) as [[a|msg] p1] eqn:E; pose proof (Hm _ _ _ E) as E1.
  - intros Ek. exact (R_trans _ _ _ E1 (Hk _ _ _ _ Ek)).
  - intros [= <- <-]. exact E1.
Qed.

Context `{Env}.

Lemma preserves_Each_from {St : Type} (cb : nat → Node → St → M St) :
  (∀ i n st, preserves R (cb i n st)) →
  ∀ nodes i st, preserves R (Each_from i nodes cb st).
Proof.
  intros Hcb nodes. induction nodes as [|n nodes IH]; intros i st; simpl.
  - apply preserves_ret.
  - apply preserves_bind; auto.
Qed.

Lemma preserves_scrapePermalink logf i n st :
  (∀ line, preserves R (logf line)) → preserves R (scrapePermalink logf i n st).
Proof.
  intros Hlog. unfold scrapePermalink. destruct (Attr n _) as [path|].
  - destruct (_ <? _); repeat (apply preserves_bind; [|intros ?]);
      auto using preserves_ret, preserves_lift.
  - apply preserves_bind; auto using preserves_ret.
Qed.

Lemma preserves_scrapeTimestamp logf i n st :
  (∀ line, preserves R (logf line)) → preserves R (scrapeTimestamp logf i n st).
Proof.
  intros Hlog. unfold scrapeTimestamp. destruct (Attr n _) as [title|].
  - destruct (_ <? _); repeat (apply preserves_bind; [|intros ?]);
      auto using preserves_ret, preserves_lift.
    destruct (time_Parse _ _); [apply preserves_ret|].
    apply preserves_bind; auto using preserves_ret.
  - apply preserves_bind; auto using preserves_ret.
Qed.

Lemma preserves_scrapeContents logf i n st :
  (∀ line, preserves R (logf line)) → preserves R (scrapeContents logf i n st).
Proof.
  intros Hlog. unfold scrapeContents. destruct (decide _); [|destruct (_ <? _)];
    repeat (apply preserves_bind; [|intros ?]);
    auto using preserves_ret, preserves_lift.
Qed.

Lemma preserves_passes logf doc sel :
  (∀ line, preserves R (logf line)) → preserves R (passes logf doc sel).
Proof.
  intros Hlog. unfold passes, pass1, pass2, pass3, Each.
  repeat (apply preserves_bind; [|intros ?]); try apply preserves_ret; auto;
    apply preserves_Each_from; intros i n st;
    auto using preserves_scrapePermalink, preserves_scrapeTimestamp,
               preserves_scrapeContents.
Qed.

Variable s : Scrape.
Hypothesis R_infof : ∀ line, preserves R (infof s line).
Hypothesis R_http_Get : ∀ raw, preserves R (http_Get raw).

Lemma preserves_getHTML u : preserves R (getHTML s u).
Proof.
  unfold getHTML. destruct u as [u|]; [|apply preserves_lift].
  apply preserves_bind; [apply R_infof|intros _].
  apply preserves_bind; [apply R_http_Get|intros [body|err]]; [|apply preserves_ret].
  destruct (json_Decode_items_html body); apply preserves_ret.
Qed.

Lemma preserves_tweets u : preserves R (tweets s u).
Proof.
  unfold tweets. apply preserves_bind; [apply preserves_getHTML|].
  intros [html [err|]]; [apply preserves_ret|].
  destruct (goquery_NewDocumentFromReader html) as [doc|]; [|apply preserves_ret].
  destruct (Find doc selTweet) as [|n sel]; [apply preserves_ret|].
  apply preserves_bind; [now apply preserves_passes | intros; apply preserves_ret].
Qed.

Lemma preserves_Tweets_iter search start until v :
  preserves R (Tweets_iter s search start until v).
Proof.
  unfold Tweets_iter.
  destruct (f search start until (minID v) (maxID v)) as [u [err|]];
    [apply preserves_ret|].
  apply preserves_bind; [apply preserves_tweets|]. intros [tw [err|]].
  - destruct (decide _); apply preserves_ret.
  - apply preserves_bind.
    + destruct (decide _); [|apply preserves_ret].
      apply preserves_bind; [apply preserves_lift | intros; apply preserves_ret].
    + intros minID'. apply preserves_bind; [apply preserves_lift|].
      intros lst. destruct (decide _); apply preserves_ret.
Qed.

Lemma preserves_Tweets fuel search start until :
  preserves R (Tweets fuel s search start until).
Proof.
  unfold Tweets. generalize Vars_init.
  induction fuel as [|fuel IH]; intros v; simpl; [apply preserves_ret|].
  apply preserves_bind; [apply preserves_Tweets_iter|].
  intros [v'|r]; [apply IH | apply preserves_ret].
Qed.

End Preserves.

(** X10. With [Info] nil nothing is ever written: a call of
    [Scrape.Tweets] leaves what the writer has received as it was, however
    the call ends. *)
Theorem Tweets_silent_without_Info `{Env} (fuel : nat) (s : Scrape)
    (search : string) (start until : Time) (p : Proc) :
  Info s = false →
  sink (Tweets fuel s search start until p).2 = sink p.
Proof.
  intros Hs.
  destruct (Tweets fuel s search start until p) as [r p'] eqn:Hrun.
  apply (preserves_Tweets (λ p p', sink p' = sink p)) in Hrun; [exact Hrun|..].
  - reflexivity.
  - intros a b c Hab Hbc. congruence.
  - intros line q r' q'. unfold infof. rewrite Hs. now intros [= _ <-].
  - intros raw q r' q'. unfold http_Get. now intros [= _ <-].
Qed.

Lemma Tweets_silent_without_Info_witness :
  sink (@Tweets Sample.round_trip 5 Sample.quiet "go" "2009-11-10" "2009-11-11"
          (mkProc [] ["earlier line"] "" false)).2 = ["earlier line"].
Proof.
  apply (@Tweets_silent_without_Info Sample.round_trip 5 Sample.quiet "go"
           "2009-11-10" "2009-11-11" (mkProc [] ["earlier line"] "" false)).
  reflexivity.
Defined.

(** X4. A call of [Scrape.tweets] on a URL makes exactly one request, for
    that URL, however the call ends: the passes make none. *)
Theorem tweets_one_request `{Env} (s : Scrape) (u : URL) (p : Proc) :
  sent (tweets s (Some u) p).2 = sent p ++ [URL_String u].
Proof.
  destruct (tweets s (Some u) p) as [r p'] eqn:Ht. now apply tweets_sent in Ht.
Qed.

Lemma Tweets_iter_requests `{Env} s search start until v p r p' :
  Tweets_iter s search start until v p = (r, p') →
  ∃ extra, sent p' = sent p ++ extra ∧ length extra ≤ 1.
Proof.
  unfold Tweets_iter.
  destruct (f search start until (minID v) (maxID v)) as [u [err|]].
  - intros [= _ <-]. exists []. rewrite app_nil_r. simpl. auto.
  - unfold bind at 1.
    destruct (tweets s u p) as [[[tw [err|]]|msg] p1] eqn:Ht; intros Hk.
    1,2: assert (Hp : p' = p1).
    1: { destruct (decide _); now injection Hk. }
    2: { unfold bind, lift, ret in Hk.
         destruct (decide (minID v = "")); [destruct (index tw 0)|];
           destruct (index tw (length tw - 1)); try destruct (decide _);
           now injection Hk. }
    3: assert (Hp : p' = p1) by now injection Hk.
    all: subst p'; destruct u as [u|];
      [ apply tweets_sent in Ht; exists [URL_String u]; simpl; auto
      | exists []; rewrite app_nil_r; split; [|simpl; lia];
        unfold tweets, getHTML, bind, lift in Ht; now injection Ht as _ <- ].
Qed.

(** X5. A call of [Scrape.Tweets] only adds to the requests made, and adds
    at most one for each iteration of its loop. *)
Theorem Tweets_requests `{Env} (fuel : nat) (s : Scrape) (search : string)
    (start until : Time) (p : Proc) :
  ∃ extra, sent (Tweets fuel s search start until p).2 = sent p ++ extra ∧
           length extra ≤ fuel.
Proof.
  unfold Tweets. generalize Vars_init. revert p.
  induction fuel as [|fuel IH]; intros p v; simpl.
  - exists []. now rewrite app_nil_r.
  - unfold bind.
    destruct (Tweets_iter s search start until v p) as [[[v'|r]|msg] p1] eqn:Hi;
      destruct (Tweets_iter_requests _ _ _ _ _ _ _ _ Hi) as (e1 & He1 & Hl1).
    + destruct (IH p1 v') as (e2 & He2 & Hl2).
      exists (e1 ++ e2). rewrite He2, He1, app_assoc, length_app. split; [reflexivity|lia].
    + exists e1. simpl. split; [exact He1|lia].
    + exists e1. simpl. split; [exact He1|lia].
Qed.

(** ** Failures of parsing *)

Lemma f_request_raw `{Env} search start until minID maxID :
  f search start until minID maxID
  = match url_Parse (request_raw search start until minID maxID) with
    | inr err =>
        (None, Some (Errorf ("parse "
                             +:+ request_raw search start until minID maxID
                             +:+ ": " +:+ err)))
    | inl u => (Some u, None)
    end.
Proof. reflexivity. Qed.

(** X8. When the URL of an iteration does not parse, [Scrape.Tweets]
    returns at once no tweets and the error [parse <url>: <cause>], drops
    the tweets of the earlier pages and makes no request for that
    iteration. *)
Theorem Tweets_url_parse_failure `{Env} (s : Scrape) (search : string)
    (start until : Time) (p0 : Proc) (pages : list (list Tweet)) (v : Vars)
    (p : Proc) (msg : string) (fuel : nat) :
  turns s search start until pages Vars_init p0 v p →
  url_Parse (request_raw search start until (minID v) (maxID v)) = inr msg →
  length pages < fuel →
  Tweets fuel s search start until p0
  = (Val (Some ([], Some (Errorf
                            ("parse "
                             +:+ request_raw search start until (minID v) (maxID v)
                             +:+ ": " +:+ msg)))), p).
Proof.
  intros Hturns Hparse Hfuel.
  apply (Tweets_returns _ _ _ _ _ pages v p); [exact Hturns | | exact Hfuel].
  unfold Tweets_iter. now rewrite f_request_raw, Hparse.
Qed.

Lemma Tweets_url_parse_failure_witness :
  @Tweets Strict.unparsable 5 Sample.quiet "go" "2009-11-10" "2009-11-11"
          Proc_init
  = (Val (Some ([], Some (Errorf ("parse " +:+ Sample.base
                                   +:+ "&max_position=TWEET-%zz-12"
                                   +:+ ": invalid URL escape")))),
     mkProc [Sample.base] [] "" false).
Proof.
  pose (E := Strict.unparsable).
  pose (tw1 := [@mkTweet E "https://www.twitter.com/a/status/12" "a" "" "" "12";
                @mkTweet E "https://www.twitter.com/b/status/%zz" "b" "" "" "%zz"]).
  pose (v1 := @mkVars E "12" "%zz" tw1).
  pose (p1 := mkProc [Sample.base] [] "" false).
  etransitivity.
  - apply (@Tweets_url_parse_failure E Sample.quiet "go" "2009-11-10" "2009-11-11"
             Proc_init [tw1] v1 p1 "invalid URL escape" 5).
    + eapply (turns_cons _ _ _ _ tw1 [] Vars_init Proc_init (Some Sample.base) v1 p1).
      * vm_compute; reflexivity.
      * vm_compute; reflexivity.
      * vm_compute; reflexivity.
      * apply turns_nil.
    + vm_compute; reflexivity.
    + simpl; lia.
  - vm_compute; reflexivity.
Defined.

(** X9. When the markup of a page cannot be read into a document,
    [Scrape.Tweets] returns at once no tweets and the error
    [tweets: <cause>], and drops the tweets of the earlier pages. *)
Theorem Tweets_document_failure `{Env} (s : Scrape) (search : string)
    (start until : Time) (p0 : Proc) (pages : list (list Tweet)) (v : Vars)
    (p : Proc) (u : option URL) (html : string) (p' : Proc) (msg : string)
    (fuel : nat) :
  turns s search start until pages Vars_init p0 v p →
  f search start until (minID v) (maxID v) = (u, None) →
  getHTML s u p = (Val (html, None), p') →
  goquery_NewDocumentFromReader html = inr msg →
  length pages < fuel →
  Tweets fuel s search start until p0
  = (Val (Some ([], Some (Errorf ("tweets: " +:+ msg)))), p').
Proof.
  intros Hturns Hf Hg Hd Hfuel.
  apply (Tweets_returns _ _ _ _ _ pages v p); [exact Hturns | | exact Hfuel].
  apply (Tweets_iter_Errorf _ _ _ _ _ _ u []); [exact Hf|].
  unfold tweets. now rewrite (bind_Val _ _ _ _ _ Hg), Hd.
Qed.

Lemma Tweets_document_failure_witness :
  @Tweets Strict.unreadable 5 Sample.quiet "go" "2009-11-10" "2009-11-11"
          Proc_init
  = (Val (Some ([], Some (Errorf "tweets: unexpected EOF"))),
     mkProc [Sample.base; Sample.base +:+ "&max_position=TWEET-11-12"] [] "" false).
Proof.
  pose (E := Strict.unreadable).
  pose (tw1 := [@mkTweet E "https://www.twitter.com/a/status/12" "a"
                         "3:26 PM - 10 Nov 2009" "first" "12";
                @mkTweet E "https://www.twitter.com/b/status/11" "b"
                         "3:20 PM - 10 Nov 2009" "second" "11"]).
  pose (v1 := @mkVars E "12" "11" tw1).
  pose (p1 := mkProc [Sample.base] [] "" false).
  pose (p2 := mkProc [Sample.base; Sample.base +:+ "&max_position=TWEET-11-12"]
                     [] "" false).
  apply (@Tweets_document_failure E Sample.quiet "go" "2009-11-10" "2009-11-11"
           Proc_init [tw1] v1 p1 (Some (Sample.base +:+ "&max_position=TWEET-11-12"))
           "unreadable" p2 "unexpected EOF" 5).
  - eapply (turns_cons _ _ _ _ tw1 [] Vars_init Proc_init (Some Sample.base) v1 p1).
    + vm_compute; reflexivity.
    + vm_compute; reflexivity.
    + vm_compute; reflexivity.
    + apply turns_nil.
  - vm_compute; reflexivity.
  - vm_compute; reflexivity.
  - reflexivity.
  - simpl; lia.
Defined.

(** ** The lines of a page *)

Lemma getHTML_sink `{Env} s u p r p1 :
  Info s = true →
  getHTML s (Some u) p = (r, p1) →
  sink p1 = sink p ++ ["fetching " +:+ URL_String u +:+ LF].
Proof.
  unfold getHTML, infof. intros ->. unfold bind, write, http_Get. simpl.
  destruct (http_Get_body _ _) as [body|err].
  - destruct (json_Decode_items_html body); now intros [= _ <-].
  - now intros [= _ <-].
Qed.

(** X11. With [Info] set, a call of [Scrape.tweets] that returns without
    error has written, after what was there, the line [fetching <url>]
    first and the line [<n> tweets processed] last, where [n] is the number
    of tweets it returns; the warnings of the passes are in between. *)
Theorem tweets_lines `{Env} (s : Scrape) (u : URL) (p : Proc)
    (tw : list Tweet) (p' : Proc) :
  Info s = true →
  tweets s (Some u) p = (Val (tw, None), p') →
  ∃ warnings,
    sink p' = sink p ++ ("fetching " +:+ URL_String u +:+ LF) :: warnings
                     ++ [pretty (length tw) +:+ " tweets processed" +:+ LF].
Proof.
  intros Hs Ht.
  destruct (tweets_ok_inv _ _ _ _ _ Ht) as (u' & html & doc & p1 & Hu & Hg & _ & _ & Hp).
  apply (getHTML_sink _ _ _ _ _ Hs) in Hg.
  unfold passes in Hp.
  apply bind_inv in Hp as (t1 & q1 & E1 & Hp).
  apply bind_inv in Hp as (t2 & q2 & E2 & Hp).
  apply bind_inv in Hp as (t3 & q3 & E3 & Hp).
  apply bind_inv in Hp as ([] & q4 & E4 & [= -> <-]).
  assert (Hgrow : ∀ line, preserves (λ a b, sink a `prefix_of` sink b) (infof s line)).
  { intros line a r b. apply growing_infof. }
  assert (Hrefl : ∀ a : Proc, sink a `prefix_of` sink a) by reflexivity.
  assert (Htrans : ∀ a b c : Proc, sink a `prefix_of` sink b →
            sink b `prefix_of` sink c → sink a `prefix_of` sink c).
  { intros a b c Hab Hbc. etransitivity; eauto. }
  assert (Hmid : sink p1 `prefix_of` sink q3).
  { eapply Htrans; [|eapply Htrans].
    - eapply (preserves_Each_from _ Hrefl Htrans _
                (λ i n st, preserves_scrapePermalink _ Hrefl Htrans _ i n st Hgrow));
        exact E1.
    - eapply (preserves_Each_from _ Hrefl Htrans _
                (λ i n st, preserves_scrapeTimestamp _ Hrefl Htrans _ i n st Hgrow));
        exact E2.
    - eapply (preserves_Each_from _ Hrefl Htrans _
                (λ i n st, preserves_scrapeContents _ Hrefl Htrans _ i n st Hgrow));
        exact E3. }
  destruct Hmid as [warnings Hmid]. exists warnings.
  unfold infof in E4. rewrite Hs in E4. injection E4 as <-. simpl.
  rewrite Hmid, Hg, <- !app_assoc. reflexivity.
Qed.

Lemma tweets_lines_witness :
  ∃ tw p' warnings,
    @tweets Sample.round_trip Sample.chatty (Some Sample.base) Proc_init
    = (Val (tw, None), p') ∧
    sink p' = sink Proc_init
              ++ ("fetching " +:+ @URL_String Sample.round_trip Sample.base +:+ LF)
                 :: warnings
              ++ [pretty (length tw) +:+ " tweets processed" +:+ LF].
Proof.
  pose (E := Sample.round_trip).
  pose (tw := [@mkTweet E "https://www.twitter.com/a/status/12" "a"
                        "3:26 PM - 10 Nov 2009" "first" "12";
               @mkTweet E "https://www.twitter.com/b/status/11" "b"
                        "3:20 PM - 10 Nov 2009" "second" "11"]).
  pose (p' := mkProc [Sample.base]
                ["fetching " +:+ Sample.base +:+ LF; "2 tweets processed" +:+ LF]
                "" false).
  assert (Ht : @tweets E Sample.chatty (Some Sample.base) Proc_init
               = (Val (tw, None), p')) by (vm_compute; reflexivity).
  destruct (@tweets_lines E Sample.chatty Sample.base Proc_init tw p'
              eq_refl Ht) as (warnings & Hsink).
  exists tw, p', warnings. split; [exact Ht | exact Hsink].
Defined.

(** ** The package-level [minID] across calls *)

Section PkgProps.
Context `{Env}.

Lemma same_pkg_refl p : same_pkg p p.
Proof. split; reflexivity. Qed.

Lemma same_pkg_trans p q r : same_pkg p q → same_pkg q r → same_pkg p r.
Proof. intros [] []. split; congruence. Qed.

Lemma same_pkg_logf line : preserves same_pkg (Pkg.logf line).
Proof.
  intros p r p' Hl. apply offline_logf in Hl as (_ & ? & ?). now split.
Qed.

Lemma same_pkg_http_Get raw : preserves same_pkg (http_Get raw).
Proof. intros p r p'. unfold http_Get. intros [= _ <-]. now split. Qed.

Lemma same_pkg_tweets url : preserves same_pkg (Pkg.tweets url).
Proof.
  unfold Pkg.tweets.
  apply (preserves_bind _ same_pkg_trans).
  - unfold Pkg.getHTML.
    apply (preserves_bind _ same_pkg_trans); [apply same_pkg_logf|intros _].
    apply (preserves_bind _ same_pkg_trans); [apply same_pkg_http_Get|].
    intros [body|err]; [|apply (preserves_ret _ same_pkg_refl)].
    destruct (json_Decode_items_html body); apply (preserves_ret _ same_pkg_refl).
  - intros [html [err|]]; [apply (preserves_ret _ same_pkg_refl)|].
    destruct (goquery_NewDocumentFromReader html) as [doc|];
      [|apply (preserves_ret _ same_pkg_refl)].
    destruct (Find doc selTweet) as [|n sel]; [apply (preserves_ret _ same_pkg_refl)|].
    apply (preserves_bind _ same_pkg_trans);
      [|intros; apply (preserves_ret _ same_pkg_refl)].
    apply (preserves_passes _ same_pkg_refl same_pkg_trans). apply same_pkg_logf.
Qed.

Lemma Pkg_f_state search start until maxID p :
  ∃ url, Pkg.f search start until maxID p = (Val url, p).
Proof.
  unfold Pkg.f. destruct (decide _); unfold bind, Pkg.get_minID, ret; eauto.
Qed.

Lemma Pkg_Tweets_iter_minID search start until v p r p' :
  pkg_minID p ≠ "" →
  Pkg.Tweets_iter search start until v p = (r, p') →
  pkg_minID p' = pkg_minID p.
Proof.
  intros Hne. unfold Pkg.Tweets_iter.
  destruct (Pkg_f_state search start until (Pkg.maxID v) p) as (url & Hf).
  rewrite (bind_Val _ _ _ _ _ Hf). unfold bind at 1.
  destruct (Pkg.tweets url p) as [[[tw [err|]]|msg] p1] eqn:Ht;
    apply same_pkg_tweets in Ht as [Hm _].
  - destruct (decide _); intros [= _ <-]; exact Hm.
  - unfold bind, Pkg.get_minID, lift, ret.
    rewrite decide_False by congruence.
    destruct (index tw (length tw - 1)); [destruct (decide _)|];
      intros [= _ <-]; exact Hm.
  - intros [= _ <-]. exact Hm.
Qed.

End PkgProps.

(** X13. The package-level [Tweets] never resets [minID]: when a call
    starts with a [minID] that is not empty (left by an earlier call), it
    ends with the same [minID], whatever it searched for. *)
Theorem Pkg_Tweets_keeps_minID `{Env} (fuel : nat) (search : string)
    (start until : Time) (p : Proc) :
  pkg_minID p ≠ "" →
  pkg_minID (Pkg.Tweets fuel search start until p).2 = pkg_minID p.
Proof.
  unfold Pkg.Tweets. generalize Pkg.Vars_init. revert p.
  induction fuel as [|fuel IH]; intros p v Hne; simpl; [reflexivity|].
  unfold bind.
  destruct (Pkg.Tweets_iter search start until v p) as [[[v'|r]|msg] p1] eqn:Hi;
    apply (Pkg_Tweets_iter_minID _ _ _ _ _ _ _ Hne) in Hi; simpl; try exact Hi.
  rewrite IH by congruence. exact Hi.
Qed.

Lemma Pkg_Tweets_keeps_minID_witness :
  pkg_minID (@Pkg.Tweets Sample.round_trip 5 "go" "2009-11-10" "2009-11-11"
               (mkProc [] [] "5602929333" false)).2 = "5602929333".
Proof.
  apply (@Pkg_Tweets_keeps_minID Sample.round_trip 5 "go" "2009-11-10"
           "2009-11-11" (mkProc [] [] "5602929333" false)).
  discriminate.
Defined.

(** ** The parts of a permalink *)

Lemma Split_free (a : string) (sep : ascii) :
  free_of sep a = true → Split a sep = [a].
Proof.
  induction a as [|c a IH]; simpl; [reflexivity|].
  destruct (decide (c = sep)); [discriminate|]. intros Hf. now rewrite IH.
Qed.

Lemma Split_app_sep (a r : string) (sep : ascii) :
  free_of sep a = true →
  Split (a +:+ String sep r) sep = a :: Split r sep.
Proof.
  induction a as [|c a IH]; simpl.
  - intros _. now rewrite decide_True.
  - destruct (decide (c = sep)); [discriminate|]. intros Hf. now rewrite IH.
Qed.

(** [Split] undoes [Join] on parts without the separator. *)
Lemma Split_Join (segs : list string) (sep : ascii) :
  segs ≠ [] →
  Forall (λ a, free_of sep a = true) segs →
  Split (Join segs sep) sep = segs.
Proof.
  induction segs as [|a segs IH]; [congruence|]. intros _ Hall.
  apply Forall_cons in Hall as [Ha Hall].
  destruct segs as [|b segs]; [now apply Split_free|].
  change (Join (a :: b :: segs) sep) with (a +:+ String sep (Join (b :: segs) sep)).
  rewrite Split_app_sep by exact Ha. now rewrite IH.
Qed.

(** X15. For a permalink path made of at least four parts joined by
    slashes (the first part is empty when the path starts with a slash),
    the first callback appends the tweet whose Name is the second part,
    whose ID is the fourth part and whose Permalink is the path after
    [https://www.twitter.com]; further parts are ignored. *)
Theorem scrapePermalink_parts `{Env} (logf : string → M unit) (i : nat)
    (n : Node) (tweets : list Tweet) (p : Proc) (tweets' : list Tweet)
    (p' : Proc) (s0 name s2 id : string) (more : list string) :
  Attr n "data-permalink-path" = Some (Join (s0 :: name :: s2 :: id :: more) "/") →
  Forall (λ a, free_of "/" a = true) (s0 :: name :: s2 :: id :: more) →
  scrapePermalink logf i n tweets p = (Val tweets', p') →
  tweets' = tweets ++ [mkTweet ("https://www.twitter.com"
                                +:+ Join (s0 :: name :: s2 :: id :: more) "/")
                               name Time_zero "" id] ∧ p' = p.
Proof.
  intros Ha Hfree. unfold scrapePermalink. rewrite Ha.
  rewrite Split_Join by (auto; discriminate). cbv zeta.
  change (length (s0 :: name :: s2 :: id :: more) <? 4) with false.
  intros [= <- <-]. split; reflexivity.
Qed.

Lemma scrapePermalink_parts_witness :
  @scrapePermalink Sample.exhausted (infof Sample.chatty) 0
    (Fixture.tweet_at "/duncanmak/status/5602929333") [] Proc_init
  = (Val [@mkTweet Sample.exhausted
            "https://www.twitter.com/duncanmak/status/5602929333"
            "duncanmak" "" "" "5602929333"], Proc_init).
Proof.
  pose (E := Sample.exhausted).
  destruct (@scrapePermalink E (infof Sample.chatty) 0
              (Fixture.tweet_at "/duncanmak/status/5602929333") [] Proc_init)
    as [[tweets'|msg] p'] eqn:Hrun; [|vm_compute in Hrun; discriminate].
  destruct (@scrapePermalink_parts E (infof Sample.chatty) 0
              (Fixture.tweet_at "/duncanmak/status/5602929333") [] Proc_init
              tweets' p' "" "duncanmak" "status" "5602929333" [])
    as [-> ->].
  - reflexivity.
  - repeat constructor.
  - exact Hrun.
  - reflexivity.
Defined.

(** ** The package-level [Tweets] as the method with a [minID] to start
    from *)


Section Corr.
Context `{Env}.
Variables (s : Scrape) (m : string).

Lemma alike_refl_on p : pkg_Verbose p = Info s → pkg_minID p = m → alike s m p p.
Proof. intros. repeat split; auto. Qed.









End Corr.

Section Revisions.
Context `{Env}.
Variable s : Scrape.

(** Every text parses as a URL that prints back as that text. *)
Hypothesis url_ok : ∀ raw, ∃ u, url_Parse raw = inl u ∧ URL_String u = raw.

Variables (search : string) (start until : Time).



End Revisions.



(** ** The first revision *)

Section V0Props.
Context `{Env}.
Variable nd : list string → string → Document + string.

Lemma V0_scrapePermalink_Val i n tweets p tweets' p' :
  V0.scrapePermalink i n tweets p = (Val tweets', p') →
  tweets' = tweets ++ [V0.tweet_of n].
Proof.
  unfold V0.scrapePermalink, V0.tweet_of. intros Hb.
  apply bind_inv in Hb as (path & p1 & E1 & Hb).
  apply bind_inv in Hb as (name & p2 & E2 & [= <- <-]).
  assert (path = default "" (Attr n "data-permalink-path")) as ->.
  { destruct (Attr n "data-permalink-path"); [now injection E1|].
    apply bind_inv in E1 as (? & ? & _ & [= <- _]). reflexivity. }
  assert (name = default "" (Attr n "data-screen-name")) as ->.
  { destruct (Attr n "data-screen-name"); [now injection E2|].
    apply bind_inv in E2 as (? & ? & _ & [= <- _]). reflexivity. }
  reflexivity.
Qed.

Lemma V0_pass1_from_Val nodes : ∀ i tweets p tweets' p',
  Each_from i nodes V0.scrapePermalink tweets p = (Val tweets', p') →
  tweets' = tweets ++ (V0.tweet_of <$> nodes).
Proof.
  induction nodes as [|n nodes IH]; intros i tweets p tweets' p'; simpl.
  - intros [= <- <-]. now rewrite app_nil_r.
  - intros Hb. apply bind_inv in Hb as (st1 & p1 & E1 & E2).
    apply V0_scrapePermalink_Val in E1 as ->. apply IH in E2 as ->.
    now rewrite <- app_assoc.
Qed.

Lemma V0_scrapeTimestamp_lookup i n tweets p tweets' p' :
  V0.scrapeTimestamp i n tweets p = (Val tweets', p') →
  ∀ j, tweets' !! j
       = (if decide (j = i) then V0.stamp_with (Some n) else id) <$> tweets !! j.
Proof.
  unfold V0.scrapeTimestamp, V0.stamp_with. destruct (Attr n "title") as [title|].
  - destruct (length tweets <? i) eqn:Hguard.
    + intros Hb j. apply bind_inv in Hb as (? & ? & _ & [= <- <-]).
      apply Nat.ltb_lt in Hguard. destruct (decide (j = i)) as [->|].
      * now rewrite lookup_ge_None_2 by lia.
      * now rewrite option_fmap_id.
    + intros Hb j. apply bind_inv in Hb as (tme & p1 & Htme & Hb).
      apply bind_inv in Hb as (tw & p2 & Hi & [= <- <-]).
      injection Hi as Hi _. apply index_Val in Hi.
      assert (tme = match time_Parse V0.timeLayout title with
                    | inl tme => tme
                    | inr _ => Time_zero
                    end) as ->.
      { destruct (time_Parse V0.timeLayout title); [now injection Htme|].
        apply bind_inv in Htme as (? & ? & _ & [= <- _]). reflexivity. }
      destruct (decide (j = i)) as [->|Hne].
      * rewrite list_lookup_insert_eq by (eapply lookup_lt_Some; eauto).
        now rewrite Hi.
      * rewrite list_lookup_insert_ne by auto. now rewrite option_fmap_id.
  - intros Hb j. apply bind_inv in Hb as (? & ? & _ & [= <- <-]).
    destruct (decide (j = i)); [now destruct (tweets !! j) | now rewrite option_fmap_id].
Qed.

Lemma V0_scrapeContents_lookup i n tweets p tweets' p' :
  V0.scrapeContents i n tweets p = (Val tweets', p') →
  ∀ j, tweets' !! j
       = (if decide (j = i) then V0.contents_with (Some n) else id) <$> tweets !! j.
Proof.
  unfold V0.scrapeContents, V0.contents_with. cbv zeta.
  destruct (decide (Trim (Text n) (" " +:+ LF) = "")) as [Hempty|Hfull].
  - intros Hb j. apply bind_inv in Hb as (? & ? & _ & [= <- <-]).
    destruct (decide (j = i)); [now destruct (tweets !! j) | now rewrite option_fmap_id].
  - destruct (length tweets <? i) eqn:Hguard.
    + intros Hb j. apply bind_inv in Hb as (? & ? & _ & [= <- <-]).
      apply Nat.ltb_lt in Hguard. destruct (decide (j = i)) as [->|].
      * now rewrite lookup_ge_None_2 by lia.
      * now rewrite option_fmap_id.
    + intros Hb j. apply bind_inv in Hb as (tw & p2 & Hi & [= <- <-]).
      injection Hi as Hi _. apply index_Val in Hi.
      destruct (decide (j = i)) as [->|Hne].
      * rewrite list_lookup_insert_eq by (eapply lookup_lt_Some; eauto).
        now rewrite Hi.
      * rewrite list_lookup_insert_ne by auto. now rewrite option_fmap_id.
Qed.

Lemma V0_Tweets_fetch search start until p :
  ∃ p1, bind (Pkg.logf ("fetching " +:+ V0.URL_of search start until +:+ LF))
             (λ _, V0.NewDocument nd (V0.URL_of search start until)) p
        = (Val (nd (sent p) (V0.URL_of search start until)), p1) ∧
        sent p1 = sent p ++ [V0.URL_of search start until].
Proof.
  destruct (total_logf ("fetching " +:+ V0.URL_of search start until +:+ LF) p)
    as ([] & q & E).
  rewrite (bind_Val _ _ _ _ _ E). apply offline_logf in E as (E & _).
  unfold V0.NewDocument. rewrite E. eauto.
Qed.

End V0Props.

(** X16. When the first revision of [Tweets] returns without error, there
    is one tweet for each identity fragment, none of them empty: Permalink
    is [https://www.twitter.com] followed by the permalink attribute and
    Name is the screen-name attribute (a missing attribute counts as the
    empty text), Timestamp and Contents come from the timestamp and the
    contents fragment at the same position. *)
Theorem V0_Tweets_records `{Env} (nd : list string → string → Document + string)
    (search : string) (start until : Time) (p : Proc) (doc : Document)
    (tw : list V0.Tweet) (p' : Proc) :
  nd (sent p) (V0.URL_of search start until) = inl doc →
  V0.Tweets nd search start until p = (Val (tw, None), p') →
  length tw = length (Find doc selTweet) ∧ ∀ i, tw !! i = V0.record_at doc i.
Proof.
  intros Hnd. unfold V0.Tweets. cbv zeta.
  destruct (V0_Tweets_fetch nd search start until p) as (p1 & Hfetch & _).
  intros Hrun.
  assert (Hrun' : bind (bind (Pkg.logf ("fetching " +:+ V0.URL_of search start until
                                        +:+ LF))
                             (λ _, V0.NewDocument nd (V0.URL_of search start until)))
                       (λ r, match r with
                             | inr err => ret ([], Some (Errorf ("tweets: " +:+ err)))
                             | inl doc =>
                                 match Find doc selTweet with
                                 | [] => ret ([], Some (Errorf "tweets: no tweets found"))
                                 | sel =>
                                     let* tweets := Each sel V0.scrapePermalink [] in
                                     let* tweets := Each (Find doc selTimestamp)
                                                      V0.scrapeTimestamp tweets in
                                     let* tweets := Each (Find doc selContents)
                                                      V0.scrapeContents tweets in
                                     ret (tweets, None)
                                 end
                             end) p = (Val (tw, None), p')).
  { rewrite <- Hrun. unfold bind.
    destruct (Pkg.logf _ p) as [[[]|msg] q]; reflexivity. }
  clear Hrun. rewrite (bind_Val _ _ _ _ _ Hfetch), Hnd in Hrun'.
  destruct (Find doc selTweet) as [|n0 sel0] eqn:Hsel; [discriminate|].
  rewrite <- Hsel in *. unfold Each in Hrun'.
  apply bind_inv in Hrun' as (t1 & q1 & E1 & Hb).
  apply bind_inv in Hb as (t2 & q2 & E2 & Hb).
  apply bind_inv in Hb as (t3 & q3 & E3 & [= <- <-]).
  apply V0_pass1_from_Val in E1 as ->. simpl in *.
  assert (Hlook : ∀ i, t3 !! i = V0.record_at doc i).
  { intros i. unfold V0.record_at.
    rewrite (Each_from_lookup V0.contents_with V0.scrapeContents
               ltac:(reflexivity) V0_scrapeContents_lookup _ _ _ _ _ _ E3 i).
    rewrite (Each_from_lookup V0.stamp_with V0.scrapeTimestamp
               ltac:(reflexivity) V0_scrapeTimestamp_lookup _ _ _ _ _ _ E2 i).
    rewrite !decide_True by lia. rewrite Nat.sub_0_r, list_lookup_fmap.
    now destruct (Find doc selTweet !! i). }
  split; [|exact Hlook].
  apply Nat.le_antisymm.
  - destruct (decide (length t3 ≤ length (Find doc selTweet))) as [|Hgt]; [assumption|].
    assert (Hsome : is_Some (t3 !! length (Find doc selTweet)))
      by (apply lookup_lt_is_Some_2; lia).
    rewrite Hlook in Hsome. unfold V0.record_at in Hsome.
    rewrite (lookup_ge_None_2 (Find doc selTweet)) in Hsome by lia.
    destruct Hsome as [? Hsome]. discriminate Hsome.
  - destruct (decide (length (Find doc selTweet) ≤ length t3)) as [|Hgt]; [assumption|].
    assert (Hnone : t3 !! length t3 = None) by (apply lookup_ge_None_2; lia).
    rewrite Hlook in Hnone. unfold V0.record_at in Hnone.
    destruct (lookup_lt_is_Some_2 (Find doc selTweet) (length t3) ltac:(lia))
      as [n Hn].
    now rewrite Hn in Hnone.
Qed.

Lemma V0_Tweets_records_witness :
  ∃ tw p',
    @V0.Tweets Sample.exhausted (λ _ _, inl Sample.first_bare)
      "go" "2009-11-10" "2009-11-11" Proc_init = (Val (tw, None), p') ∧
    length tw = 2 ∧
    tw !! 0 = Some (@V0.mkTweet Sample.exhausted "https://www.twitter.com" "" "" "").
Proof.
  pose (E := Sample.exhausted).
  destruct (@V0.Tweets E (λ _ _, inl Sample.first_bare)
              "go" "2009-11-10" "2009-11-11" Proc_init) as [[[tw [err|]]|msg] p']
    eqn:Hrun; try (vm_compute in Hrun; discriminate).
  destruct (@V0_Tweets_records E (λ _ _, inl Sample.first_bare)
              "go" "2009-11-10" "2009-11-11" Proc_init Sample.first_bare tw p'
              eq_refl Hrun) as [Hlen Hlook].
  exists tw, p'. split; [exact Hrun|]. split; [exact Hlen|].
  rewrite Hlook. reflexivity.
Defined.

(** X17. In the first revision a page without identity fragments is an
    error, not the end of a search: [Tweets] returns no tweets and the
    error [tweets: no tweets found], after its one request. *)
Theorem V0_Tweets_no_tweets `{Env} (nd : list string → string → Document + string)
    (search : string) (start until : Time) (p : Proc) (doc : Document) :
  nd (sent p) (V0.URL_of search start until) = inl doc →
  Find doc selTweet = [] →
  ∃ p', V0.Tweets nd search start until p
        = (Val ([], Some (Errorf "tweets: no tweets found")), p') ∧
        sent p' = sent p ++ [V0.URL_of search start until].
Proof.
  intros Hnd Hsel. unfold V0.Tweets. cbv zeta.
  destruct (total_logf ("fetching " +:+ V0.URL_of search start until +:+ LF) p)
    as ([] & q & E).
  rewrite (bind_Val _ _ _ _ _ E). apply offline_logf in E as (E & _).
  unfold bind, V0.NewDocument. rewrite E, Hnd, Hsel. unfold ret. eauto.
Qed.

Lemma V0_Tweets_no_tweets_witness :
  ∃ p',
    @V0.Tweets Sample.exhausted (λ _ _, inl Sample.nothing)
      "go" "2009-11-10" "2009-11-11" Proc_init
    = (Val ([], Some (Errorf "tweets: no tweets found")), p').
Proof.
  destruct (@V0_Tweets_no_tweets Sample.exhausted (λ _ _, inl Sample.nothing)
              "go" "2009-11-10" "2009-11-11" Proc_init Sample.nothing
              eq_refl eq_refl) as (p' & Hrun & _).
  exists p'. exact Hrun.
Defined.

(** ** Tweets or an error, never both *)

Lemma Tweets_iter_Return_error `{Env} s search start until v p r e p' :
  Tweets_iter s search start until v p = (Val (Return (r, Some e)), p') →
  r = [] ∧ e ≠ errNoTweets.
Proof.
  unfold Tweets_iter. rewrite f_request_raw.
  destruct (url_Parse _) as [u|msg].
  - intros Hb. apply bind_inv in Hb as ([tw [err|]] & p1 & _ & Hk).
    + destruct (decide (err = errNoTweets)); [discriminate|].
      injection Hk as <- <- _. auto.
    + apply bind_inv in Hk as (minID' & p2 & _ & Hk).
      apply bind_inv in Hk as (lst & p3 & _ & Hk).
      destruct (decide _); discriminate.
  - intros [= <- <- _]. split; [reflexivity | discriminate].
Qed.

(** X18. [Scrape.Tweets] never returns tweets together with an error: when
    the error is not nil the tweets are nil, and the error is never
    [errNoTweets], which stays inside the package. *)
Theorem Tweets_error_means_no_tweets `{Env} (fuel : nat) (s : Scrape)
    (search : string) (start until : Time) (p : Proc) (r : list Tweet)
    (e : error) (p' : Proc) :
  Tweets fuel s search start until p = (Val (Some (r, Some e)), p') →
  r = [] ∧ e ≠ errNoTweets.
Proof.
  unfold Tweets. generalize Vars_init. revert p.
  induction fuel as [|fuel IH]; intros p v; simpl; [discriminate|].
  intros Hb. apply bind_inv in Hb as ([v1|r1] & p1 & Hi & Hk).
  - exact (IH _ _ Hk).
  - injection Hk as -> <-. exact (Tweets_iter_Return_error _ _ _ _ _ _ _ _ _ Hi).
Qed.

Lemma Tweets_error_means_no_tweets_witness :
  ∃ r e p',
    @Tweets Sample.garbled 5 Sample.quiet "go" "2009-11-10" "2009-11-11"
            Proc_init = (Val (Some (r, Some e)), p') ∧
    r = [] ∧ e = Errorf "tweets: could not decode: EOF".
Proof.
  pose (E := Sample.garbled).
  destruct (@Tweets E 5 Sample.quiet "go" "2009-11-10" "2009-11-11" Proc_init)
    as [[[[r [e|]]|]|msg] p'] eqn:Hrun; try (vm_compute in Hrun; discriminate).
  destruct (@Tweets_error_means_no_tweets E 5 Sample.quiet "go" "2009-11-10"
              "2009-11-11" Proc_init r e p' Hrun) as [-> _].
  exists [], e, p'. split; [exact Hrun|]. split; [reflexivity|].
  vm_compute in Hrun. now injection Hrun as ->.
Defined.
